(** * sgpt/role.py: role records, their store and role identification

    A shallow embedding of [sgpt/role.py].  Python [str] values are
    sequences of Unicode code points, dictionaries are finite maps, the
    role storage directory and the class-level [message_to_role]
    dictionary form the mutable world that the methods of [SystemRole]
    read and update, and a raised exception is an explicit outcome.

    Modelled: [role_template], the four templates, and the methods
    [__init__], [create_defaults], [get], [create], [get_role_name],
    [_exists], [_file_path], [_save], [delete] and [same_role].  The
    answers of the user and the names of the operating system and of the
    shell are parameters.  Further on: the platform queries [_os_name]
    and [_shell_name] as functions of what the platform answers, [list] as
    the sequence of paths it echoes, and the enumeration [DefaultRoles].
    [show], which only prints, is left out.

    The storage directory is a flat directory of a case-sensitive POSIX
    file system, and a role is filed under the key [name.json]: this is
    what the source does for a role name that is a single path component
    ([plain_component]: no slash and no NUL).  The content of a file is
    the record that [json.dumps] serialises; what the encodings of
    [write_text] and [read_text] do to the text of a file is modelled
    apart, in [Codec]. *)

From Stdlib Require Import Strings.String Strings.Ascii.
From stdpp Require Import base option list gmap sorting.

Local Open Scope N_scope.

(** ** Python strings *)

Module PyStr.

(** A [str] is the list of its code points. *)
Definition str : Type := list N.

(** The code points of an ASCII literal of the source. *)
Definition lit (s : string) : str :=
  List.map N_of_ascii (list_ascii_of_string s).
Arguments lit s%_string.

Definition nl : str := [10].
Definition dquote : str := [34].

(** Truth value of a string: [bool(s)]. *)
Definition truthy (s : str) : bool :=
  match s with [] => false | _ :: _ => true end.

(** [s[lo:hi]] for non-negative literal bounds; out-of-range bounds are
    clamped, as Python slices are. *)
Definition slice (lo hi : nat) (s : str) : str :=
  take (hi - lo) (drop lo s).

(** [s.startswith(p)]. *)
Fixpoint startswith (p s : str) : bool :=
  match p, s with
  | [], _ => true
  | _ :: _, [] => false
  | a :: p', b :: s' => (a =? b) && startswith p' s'
  end.

(** [s.endswith(p)]. *)
Definition endswith (p s : str) : bool :=
  startswith (rev p) (rev s).

(** [s.find(sub)]: the lowest index at which [sub] occurs, [None] for
    Python's [-1]. *)
Fixpoint find (sub s : str) : option nat :=
  if startswith sub s then Some 0%nat
  else match s with
       | [] => None
       | _ :: s' => S <$> find sub s'
       end.

(** [sub in s]. *)
Definition contains (sub s : str) : bool :=
  match find sub s with Some _ => true | None => false end.

(** The characters for which [str.isspace] holds; these are the ones
    [str.strip()] removes. *)
Definition isspace (c : N) : bool :=
  ((9 <=? c) && (c <=? 13)) || ((28 <=? c) && (c <=? 32))
  || (c =? 133) || (c =? 160) || (c =? 5760)
  || ((8192 <=? c) && (c <=? 8202))
  || (c =? 8232) || (c =? 8233) || (c =? 8239) || (c =? 8287)
  || (c =? 12288).

Fixpoint lstrip (s : str) : str :=
  match s with
  | c :: s' => if isspace c then lstrip s' else s
  | [] => []
  end.

Definition rstrip (s : str) : str := rev (lstrip (rev s)).

(** [s.strip()]. *)
Definition strip (s : str) : str := rstrip (lstrip s).

(** The line boundaries of [str.splitlines]. *)
Definition is_linebreak (c : N) : bool :=
  ((10 <=? c) && (c <=? 13)) || ((28 <=? c) && (c <=? 30))
  || (c =? 133) || (c =? 8232) || (c =? 8233).

(** [s.splitlines()]: [line] is the line being read, [None] at the start
    of a line.  A carriage return directly followed by a line feed is one
    boundary, and a final boundary opens no further line. *)
Fixpoint splitlines_from (line : option str) (s : str) : list str :=
  match s with
  | [] => match line with None => [] | Some l => [l] end
  | c :: rest =>
      if is_linebreak c then
        default [] line ::
          match rest with
          | d :: rest' =>
              if (c =? 13) && (d =? 10) then splitlines_from None rest'
              else splitlines_from None rest
          | [] => []
          end
      else splitlines_from (Some (default [] line ++ [c])) rest
  end.

Definition splitlines (s : str) : list str := splitlines_from None s.

(** [s.split(sep)] for a non-empty separator, as CPython computes it: find
    the next occurrence, cut the piece before it, continue behind it.
    Every round consumes at least one character, so [length s] rounds
    suffice (lemma [split_rounds_enough]). *)
Fixpoint split_rounds (n : nat) (sep s : str) : list str :=
  match n with
  | O => [s]
  | S n' =>
      match find sep s with
      | None => [s]
      | Some i => take i s :: split_rounds n' sep (drop (i + length sep) s)
      end
  end.

Definition split (sep s : str) : list str := split_rounds (length s) sep s.

(** [s.partition(sep)]: the part before the first occurrence of [sep], the
    separator, and the part after it; [(s, "", "")] when [sep] does not
    occur. *)
Definition partition (sep s : str) : str * str * str :=
  match find sep s with
  | Some i => (take i s, sep, drop (i + length sep) s)
  | None => (s, [], [])
  end.

(** The first line of a text: its characters before the first line
    boundary. *)
Fixpoint first_line (s : str) : str :=
  match s with
  | [] => []
  | c :: s' => if is_linebreak c then [] else c :: first_line s'
  end.

End PyStr.
Export PyStr.

(** ** Exceptions and outcomes *)

(** The exceptions the modelled code can raise.  [Abort] is [typer.Abort],
    raised by [typer.confirm(..., abort=True)] on a declined confirmation;
    [BadArgumentUsage] is click's.  [Unsupported] is raised by the model of
    [str.format] only, for replacement fields outside the modelled
    fragment. *)
Inductive exn : Type :=
  | IndexError
  | KeyError (key : str)
  | ValueError
  | FileNotFoundError
  | Abort
  | BadArgumentUsage (msg : str)
  | Unsupported.

Inductive outcome (A : Type) : Type :=
  | Ok (a : A)
  | Raise (e : exn).
Arguments Ok {A} a.
Arguments Raise {A} e.

Definition outcome_map {A B} (f : A → B) (o : outcome A) : outcome B :=
  match o with Ok a => Ok (f a) | Raise e => Raise e end.

(** [l[i]] on a list. *)
Definition list_getitem {A} (l : list A) (i : nat) : outcome A :=
  match l !! i with Some a => Ok a | None => Raise IndexError end.

(** [d[k]] on a dictionary. *)
Definition dict_getitem (d : gmap str str) (k : str) : outcome str :=
  match d !! k with Some v => Ok v | None => Raise (KeyError k) end.

(** Truth value of a dictionary: [bool(d)]. *)
Definition dict_truthy (d : gmap str str) : bool :=
  negb (bool_decide (d = ∅)).

(** ** [str.format] with keyword arguments

    The fragment used by the role templates: replacement fields that are
    plain keyword names, and the escapes of the two braces.  A field that
    is empty or a number refers to a positional argument, of which there
    are none.  Not modelled, and answered by [Unsupported]: conversions,
    format specifications, attribute and index access (a field with an
    exclamation mark, a colon, a dot or an opening bracket); fields with a
    character outside ASCII, among which the interpreter counts the
    decimal digits of every script as digits of a positional index; and
    numbers from 2^31 on, which raise [IndexError] or [ValueError]
    according to the width of the platform's index type. *)

Definition lbrace : N := 123.
Definition rbrace : N := 125.

Definition is_digit (c : N) : bool := (48 <=? c) && (c <=? 57).

Definition outside_fragment (c : N) : bool :=
  (c =? 33) || (c =? 58) || (c =? 46) || (c =? 91) || (128 <=? c).

(** The number that a sequence of ASCII digits denotes. *)
Definition decimal_value (field : str) : N :=
  foldl (λ acc c, 10 * acc + (c - 48)) 0 field.

Definition field_value (kw : gmap str str) (field : str) : outcome str :=
  if existsb outside_fragment field then Raise Unsupported
  else if forallb is_digit field then
    if decimal_value field <? 2 ^ 31 then Raise IndexError
    else Raise Unsupported
  else dict_getitem kw field.

(** [field] is the replacement field being read, [None] outside of one. *)
Fixpoint format_from (kw : gmap str str) (field : option str) (s : str)
  : outcome str :=
  match s with
  | [] => match field with None => Ok [] | Some _ => Raise ValueError end
  | c :: rest =>
      match field with
      | None =>
          if c =? lbrace then
            match rest with
            | d :: rest' =>
                if d =? lbrace
                then outcome_map (cons lbrace) (format_from kw None rest')
                else format_from kw (Some []) rest
            | [] => Raise ValueError
            end
          else if c =? rbrace then
            match rest with
            | d :: rest' =>
                if d =? rbrace
                then outcome_map (cons rbrace) (format_from kw None rest')
                else Raise ValueError
            | [] => Raise ValueError
            end
          else outcome_map (cons c) (format_from kw None rest)
      | Some f =>
          if c =? rbrace then
            match field_value kw f with
            | Ok v => outcome_map (app v) (format_from kw None rest)
            | Raise e => Raise e
            end
          else if c =? lbrace then Raise ValueError
          else format_from kw (Some (f ++ [c])) rest
      end
  end.

Definition format (s : str) (kw : gmap str str) : outcome str :=
  format_from kw None s.

(** A text without braces, and a replacement field that is a plain keyword
    name: ASCII characters only, no brace, none of the characters that
    start a conversion, a format specification or an access, and not a
    number. *)
Definition brace_free (s : str) : bool :=
  forallb (λ c, negb ((c =? lbrace) || (c =? rbrace))) s.

Definition plain_field (f : str) : bool :=
  brace_free f && negb (existsb outside_fragment f)
  && negb (forallb is_digit f).

(** ** The role templates *)

Definition unlines (ls : list str) : str :=
  match ls with
  | [] => []
  | l :: ls' => l ++ concat (List.map (λ x, nl ++ x) ls')
  end.

Definition SHELL_ROLE : str := unlines [
  lit "Provide only {shell} commands for {os} without any description.";
  lit "If there is a lack of details, provide most logical solution.";
  lit "Ensure the output is a valid shell command.";
  lit "If multiple steps required try to combine them together using &&.";
  lit "Provide only plain text without Markdown formatting.";
  lit "Do not provide markdown formatting such as ```.";
  [] ].

Definition DESCRIBE_SHELL_ROLE : str := unlines [
  lit "Provide a terse, single sentence description of the given shell command.";
  lit "Describe each argument and option of the command.";
  lit "Provide short responses in about 80 words.";
  lit "APPLY MARKDOWN formatting when possible." ].

Definition CODE_ROLE : str := unlines [
  lit "Provide only code as output without any description.";
  lit "Provide only code in plain text format without Markdown formatting.";
  lit "Do not include symbols such as ``` or ```python.";
  lit "If there is a lack of details, provide most logical solution.";
  lit "You are not allowed to ask for more details.";
  lit "For example if the prompt is " ++ dquote ++ lit "Hello world Python"
    ++ dquote ++ lit ", you should return " ++ dquote
    ++ lit "print('Hello world')" ++ dquote ++ lit "." ].

Definition DEFAULT_ROLE : str := unlines [
  lit "You are programming and system administration assistant.";
  lit "You are managing {os} operating system with {shell} shell.";
  lit "Provide short responses in about 100 words, unless you are specifically asked for more details.";
  lit "If you need to store any data, assume it will be stored in the conversation.";
  lit "APPLY MARKDOWN formatting when possible." ].

Definition role_template (name role message_to_role : str) : str :=
  if truthy message_to_role then role
  else lit "You are " ++ name ++ nl ++ role.

(** ** class SystemRole *)

Module SystemRole.

(** An instance: the attributes [__init__] sets.  The JSON file of a role
    is [json.dumps(self.__dict__)], an object with exactly these three
    members, and [json.loads] gives them back; the model keeps the record
    itself as the content of the file. *)
Record t : Type := Build {
  name : str;
  role : str;
  message_to_role : option (gmap str str);
}.

(** The mutable world of the class: the contents of the directory
    [storage], by file name ([None] while the directory does not exist),
    and the class attribute [message_to_role], the mapping from phrases to
    role names that [get_role_name] consults. *)
Record world : Type := World {
  storage : option (gmap str t);
  cls_message_to_role : gmap str str;
}.

(** Computations that read and update the world and may raise.  The world
    reached when an exception is raised is kept: what was written before is
    on disk. *)
Definition M (A : Type) : Type := world → outcome A * world.

#[export] Instance M_ret : MRet M := λ A a w, (Ok a, w).
#[export] Instance M_bind : MBind M := λ A B f m w,
  match m w with
  | (Ok a, w') => f a w'
  | (Raise e, w') => (Raise e, w')
  end.

Definition raise {A} (e : exn) : M A := λ w, (Raise e, w).

Definition lift {A} (o : outcome A) : M A := λ w, (o, w).

(** A [for] loop over a list. *)
Fixpoint for_each {A} (l : list A) (body : A → M ()) : M () :=
  match l with
  | [] => mret ()
  | x :: l' => body x ≫= λ _, for_each l' body
  end.

(** *** The file system under [storage] *)

(** [storage.mkdir(parents=True, exist_ok=True)]. *)
Definition mkdir : M () := λ w,
  (Ok (), World (Some (default ∅ (storage w))) (cls_message_to_role w)).

(** [(storage / file).exists()]. *)
Definition path_exists (file : str) : M bool := λ w,
  (Ok (match storage w with
       | Some dir => bool_decide (is_Some (dir !! file))
       | None => false
       end), w).

(** [(storage / file).write_text(json.dumps(obj.__dict__))]. *)
Definition write_text (file : str) (obj : t) : M () := λ w,
  match storage w with
  | Some dir => (Ok (), World (Some (<[file := obj]> dir)) (cls_message_to_role w))
  | None => (Raise FileNotFoundError, w)
  end.

(** [json.loads((storage / file).read_text())]. *)
Definition read_text (file : str) : M t := λ w,
  match storage w ≫= (.!! file) with
  | Some obj => (Ok obj, w)
  | None => (Raise FileNotFoundError, w)
  end.

(** [(storage / file).unlink()]. *)
Definition unlink (file : str) : M () := λ w,
  match storage w with
  | Some dir =>
      if bool_decide (is_Some (dir !! file))
      then (Ok (), World (Some (base.delete file dir)) (cls_message_to_role w))
      else (Raise FileNotFoundError, w)
  | None => (Raise FileNotFoundError, w)
  end.

(** [storage.iterdir()]: the entries with their contents.  The order in
    which a directory is listed is not specified; the model lists it in
    the order of the map's enumeration. *)
Definition iterdir : M (list (str * t)) := λ w,
  match storage w with
  | Some dir => (Ok (map_to_list dir), w)
  | None => (Raise FileNotFoundError, w)
  end.

(** [cls.message_to_role[phrase] = name]. *)
Definition message_to_role_setitem (phrase name : str) : M () := λ w,
  (Ok (), World (storage w) (<[phrase := name]> (cls_message_to_role w))).

(** [cls.message_to_role.get(key)]. *)
Definition message_to_role_get (key : str) : M (option str) := λ w,
  (Ok (cls_message_to_role w !! key), w).

Section Methods.

(** The collaborators: the answer of the user to [typer.confirm] and to
    [typer.prompt], by prompt text, and the results of [_os_name()] and
    [_shell_name()], which query the platform. *)
Variable confirm : str → bool.
Variable prompt : str → str.
Variable _os_name : str.
Variable _shell_name : str.

(** [typer.confirm(text, abort=True)]. *)
Definition typer_confirm (text : str) : M () :=
  if confirm text then mret () else raise Abort.

Definition __init__ (name role : str)
    (message_to_role : option (gmap str str))
    (variables : option (gmap str str)) : M t :=
  mkdir;;
  role ← match variables with
         | Some kw => if dict_truthy kw then lift (format role kw) else mret role
         | None => mret role
         end;
  mret (Build name role message_to_role).

Definition _file_path (self : t) : str :=
  SystemRole.name self ++ lit ".json".

Definition _exists (self : t) : M bool :=
  path_exists (_file_path self).

(** Returns [self] as the method leaves it, with its [role] replaced. *)
Definition _save (self : t) : M t :=
  ex ← _exists self;
  (if ex : bool then
     typer_confirm (lit "Role " ++ dquote ++ SystemRole.name self ++ dquote
                      ++ lit " already exists, overwrite it?")
   else mret ());;
  let message_to_role := slice 0 20 (SystemRole.role self) in
  let self := Build (SystemRole.name self)
                (role_template (SystemRole.name self) (SystemRole.role self)
                   message_to_role)
                (SystemRole.message_to_role self) in
  write_text (_file_path self) self;;
  mret self.

(** The first loop of [create_defaults].  The three calls that pass
    [variables] pass it as the third positional argument, which is the
    parameter [message_to_role] of [__init__].  (The [mkdir] of the parent
    of [storage] is not modelled; the constructors create [storage].) *)
Definition seed_defaults : M () :=
  let variables : gmap str str :=
    {[ lit "shell" := _shell_name; lit "os" := _os_name ]} in
  r1 ← __init__ (lit "ShellGPT") DEFAULT_ROLE (Some variables) None;
  r2 ← __init__ (lit "Shell Command Generator") SHELL_ROLE (Some variables) None;
  r3 ← __init__ (lit "Shell Command Descriptor") DESCRIBE_SHELL_ROLE
         (Some variables) None;
  r4 ← __init__ (lit "Code Generator") CODE_ROLE None None;
  for_each [r1; r2; r3; r4] (λ default_role,
    ex ← _exists default_role;
    if ex : bool then mret () else _save default_role;; mret ()).

(** The body of the second loop of [create_defaults], for one directory
    entry.  In the assignment the right-hand side, [message_to_role["name"]],
    is evaluated before the subscript of the target. *)
Definition load_message_to_role (entry : str * t) : M () :=
  let '(file_name, role) := entry in
  if endswith (lit ".json") file_name then
    match SystemRole.message_to_role role with
    | Some message_to_role =>
        if dict_truthy message_to_role then
          name ← lift (dict_getitem message_to_role (lit "name"));
          phrase ← lift (dict_getitem message_to_role (lit "phrase"));
          message_to_role_setitem phrase name
        else mret ()
    | None => mret ()
    end
  else mret ().

Definition create_defaults : M () :=
  seed_defaults;;
  files ← iterdir;
  for_each files load_message_to_role.

Definition get (name : str) : M t :=
  let file_path := name ++ lit ".json" in
  ex ← path_exists file_path;
  if ex : bool then
    obj ← read_text file_path;
    __init__ (SystemRole.name obj) (SystemRole.role obj)
      (SystemRole.message_to_role obj) None
  else
    raise (BadArgumentUsage
             (lit "Role " ++ dquote ++ name ++ dquote ++ lit " not found.")).

(** The function that [option_callback] decorates.  Returns the instance
    it saved. *)
Definition create (name : str) : M t :=
  let role := prompt (lit "Enter role description") in
  role ← __init__ name role None None;
  _save role.

Definition get_role_name (initial_message : str) : M (option str) :=
  if truthy initial_message then
    let message_lines := splitlines initial_message in
    line ← lift (list_getitem message_lines 0);
    let first_twenty_lines := slice 8 27 line in
    if contains (lit "You are") line then
      piece ← lift (list_getitem (split (lit "You are ") line) 1);
      mret (Some (strip piece))
    else
      found ← message_to_role_get first_twenty_lines;
      match found with
      | Some name => if truthy name then mret (Some name) else mret None
      | None => mret None
      end
  else mret None.

Definition delete (self : t) : M () :=
  ex ← _exists self;
  (if ex : bool then
     typer_confirm (lit "Role " ++ dquote ++ SystemRole.name self ++ dquote
                      ++ lit " exist, delete it?")
   else mret ());;
  unlink (_file_path self).

Definition same_role (self : t) (initial_message : str) : bool :=
  truthy initial_message
  && contains (lit "You are " ++ SystemRole.name self) initial_message.

End Methods.

End SystemRole.

(** ** Role names and file names *)

(** A role name that is a single path component: [storage / "name.json"]
    is then the entry [name.json] of the storage directory.  A name with a
    slash leads elsewhere (a subdirectory, the parent, an absolute path,
    or the same entry written another way), and one with a NUL is no file
    name. *)
Definition plain_component (name : str) : bool :=
  forallb (λ c, negb ((c =? 47) || (c =? 0))) name.

(** ** The text of a role file and its encodings

    [_save] writes the text [json.dumps(self.__dict__, ensure_ascii=False)]
    with [encoding="utf-8"]; [get] and [create_defaults] read it back with
    [read_text()], which decodes with the encoding of the locale.  Bytes
    are numbers below 256, and [None] stands for [UnicodeEncodeError] and
    [UnicodeDecodeError]. *)

Module Codec.

(** The UTF-8 encoding of a code point; surrogates have none. *)
Definition utf8_encode_char (c : N) : option (list N) :=
  if c <? 128 then Some [c]
  else if c <? 2048 then Some [192 + c / 64; 128 + c mod 64]
  else if (55296 <=? c) && (c <=? 57343) then None
  else if c <? 65536 then
    Some [224 + c / 4096; 128 + (c / 64) mod 64; 128 + c mod 64]
  else if c <? 1114112 then
    Some [240 + c / 262144; 128 + (c / 4096) mod 64;
          128 + (c / 64) mod 64; 128 + c mod 64]
  else None.

(** [text.encode("utf-8")]. *)
Definition utf8_encode (text : str) : option (list N) :=
  (λ chunks, concat chunks) <$> mapM utf8_encode_char text.

(** The character that the code page 1252 gives to a byte; five bytes have
    none. *)
Definition cp1252_decode_byte (b : N) : option N :=
  if (b <? 128) || ((160 <=? b) && (b <? 256)) then Some b
  else
    list_to_map (M := gmap N N)
      [ (128, 8364); (130, 8218); (131, 402); (132, 8222); (133, 8230);
        (134, 8224); (135, 8225); (136, 710); (137, 8240); (138, 352);
        (139, 8249); (140, 338); (142, 381); (145, 8216); (146, 8217);
        (147, 8220); (148, 8221); (149, 8226); (150, 8211); (151, 8212);
        (152, 732); (153, 8482); (154, 353); (155, 8250); (156, 339);
        (158, 382); (159, 376) ] !! b.

(** [data.decode("cp1252")]. *)
Definition cp1252_decode (data : list N) : option str :=
  mapM cp1252_decode_byte data.

Definition hex_digit (n : N) : N := if n <? 10 then 48 + n else 87 + n.

(** How [json.dumps] writes a character of a string when
    [ensure_ascii=False]: the quote, the backslash and the control
    characters are escaped, every other character is written as it is. *)
Definition json_escape_char (c : N) : str :=
  if c =? 34 then [92; 34]
  else if c =? 92 then [92; 92]
  else if c =? 10 then [92; 110]
  else if c =? 13 then [92; 114]
  else if c =? 9 then [92; 116]
  else if c =? 8 then [92; 98]
  else if c =? 12 then [92; 102]
  else if c <? 32 then [92; 117; 48; 48; hex_digit (c / 16); hex_digit (c mod 16)]
  else [c].

Definition json_string (s : str) : str :=
  dquote ++ concat (List.map json_escape_char s) ++ dquote.

(** The text that [_save] writes for an instance without a mapping, as
    [create] builds them: the members [name], [role] and
    [message_to_role], the last one null. *)
Definition dumps_created (name role : str) : str :=
  lit "{" ++ json_string (lit "name") ++ lit ": " ++ json_string name
  ++ lit ", " ++ json_string (lit "role") ++ lit ": " ++ json_string role
  ++ lit ", " ++ json_string (lit "message_to_role") ++ lit ": null}".

(** The text that [read_text()] returns, in a locale whose encoding is the
    code page 1252, for a file that holds [text] written with
    [encoding="utf-8"]. *)
Definition read_back_cp1252 (text : str) : option str :=
  utf8_encode text ≫= cp1252_decode.

End Codec.

(** ** The build phase of [create_defaults] *)

Import (hints) SystemRole.

(** The second loop of [create_defaults] on its own: the directory is
    listed and every entry is passed to [load_message_to_role]. *)
Definition build_mapping : SystemRole.M () :=
  files ← SystemRole.iterdir;
  SystemRole.for_each files SystemRole.load_message_to_role.




(** ** The seeding phase of [create_defaults] *)

(** The four instances that [create_defaults] builds. *)
Definition default_instances (os shell : str) : list SystemRole.t :=
  let variables : gmap str str := {[ lit "shell" := shell; lit "os" := os ]} in
  [ SystemRole.Build (lit "ShellGPT") DEFAULT_ROLE (Some variables);
    SystemRole.Build (lit "Shell Command Generator") SHELL_ROLE (Some variables);
    SystemRole.Build (lit "Shell Command Descriptor") DESCRIBE_SHELL_ROLE
      (Some variables);
    SystemRole.Build (lit "Code Generator") CODE_ROLE None ].

(** The directory after the first loop has handled one instance: written
    if its file was missing, left alone otherwise. *)
Definition seed_file (dir : gmap str SystemRole.t) (r : SystemRole.t)
  : gmap str SystemRole.t :=
  if bool_decide (is_Some (dir !! SystemRole._file_path r)) then dir
  else <[SystemRole._file_path r := r]> dir.

(** ** The platform queries [_os_name] and [_shell_name]

    The two class methods as functions of what the platform answers:
    [platform.system()], [distro.name(pretty=True)], [platform.release()],
    [platform.mac_ver()[0]], the environment and [os.pathsep]. *)

Module Platform.

(** The number of occurrences of the character [c] in [s]: [s.count(c)]. *)
Fixpoint count_char (c : N) (s : str) : nat :=
  match s with
  | [] => 0%nat
  | x :: s' => ((if (x =? c)%N then 1 else 0) + count_char c s')%nat
  end.

(** [os.getenv(key, default)]. *)
Definition getenv (environ : gmap str str) (key dflt : str) : str :=
  from_option id dflt (environ !! key).

(** The characters of [s] before the first [c]. *)
Fixpoint until_char (c : N) (s : str) : str :=
  match s with
  | [] => []
  | x :: s' => if x =? c then [] else x :: until_char c s'
  end.

(** [os.path.basename(p)] of [posixpath]: what follows the last slash,
    [p[p.rfind("/") + 1:]]. *)
Definition basename (p : str) : str := rev (until_char 47 (rev p)).

Definition _os_name (current_platform distro_name release mac_ver : str)
  : str :=
  if bool_decide (current_platform = lit "Linux") then
    lit "Linux/" ++ distro_name
  else if bool_decide (current_platform = lit "Windows") then
    lit "Windows " ++ release
  else if bool_decide (current_platform = lit "Darwin") then
    lit "Darwin/MacOS " ++ mac_ver
  else current_platform.

Definition _shell_name (current_platform : str) (environ : gmap str str)
    (pathsep : str) : str :=
  if bool_decide (current_platform = lit "Windows")
     || bool_decide (current_platform = lit "nt") then
    let is_powershell :=
      bool_decide
        (3 ≤ length (split pathsep (getenv environ (lit "PSModulePath") [])))%nat
    in
    if is_powershell then lit "powershell.exe" else lit "cmd.exe"
  else basename (getenv environ (lit "SHELL") (lit "/bin/sh")).

End Platform.

(** ** [SystemRole.list]

    [sorted(files, key=...)] is a stable sort: an element goes before the
    first one whose key is not smaller, and the elements are inserted from
    the last to the first, so equal keys keep their order. *)

Section Sorted.

Context {A K : Type} (key : A → K) (le : K → K → bool).

Fixpoint insert_by (x : A) (l : list A) : list A :=
  match l with
  | [] => [x]
  | y :: l' => if le (key x) (key y) then x :: l else y :: insert_by x l'
  end.

Definition sorted (l : list A) : list A := foldr insert_by [] l.

End Sorted.

(** The function that [option_callback] decorates, as the list of the
    paths it echoes, in order.  [st_mtime] gives the modification time of
    a file of the directory and [le] compares two of them; the entries are
    those of [glob("*")], given by their names in the directory. *)
Definition list_ {mtime : Type} (le : mtime → mtime → bool)
    (st_mtime : str → mtime) : SystemRole.M (list str) := λ w,
  match SystemRole.storage w with
  | None => (Ok [], w)
  | Some dir => (Ok (sorted st_mtime le (map_to_list dir).*1), w)
  end.

(** ** class DefaultRoles *)

Module DefaultRoles.

Inductive t : Type := DEFAULT | SHELL | DESCRIBE_SHELL | CODE.

Definition value (self : t) : str :=
  match self with
  | DEFAULT => lit "ShellGPT"
  | SHELL => lit "Shell Command Generator"
  | DESCRIBE_SHELL => lit "Shell Command Descriptor"
  | CODE => lit "Code Generator"
  end.



End DefaultRoles.

(** ** Worlds and collaborators used in the examples *)

(** A process start on a machine without a storage directory: nothing on
    disk, and the class attribute [message_to_role] is the empty
    dictionary of the class body. *)
Definition fresh : SystemRole.world := SystemRole.World None ∅.

(** A new process on the disk that an earlier one left: the class
    attribute starts empty again. *)
Definition restart (w : SystemRole.world) : SystemRole.world :=
  SystemRole.World (SystemRole.storage w) ∅.

(** A user who accepts, and one who declines, every confirmation. *)
Definition accept : str → bool := λ _, true.
Definition decline : str → bool := λ _, false.

(** A user who answers every prompt with [text]. *)
Definition answer (text : str) : str → str := λ _, text.

(** A storage directory that already holds the four default roles in
    files whose [message_to_role] member is null, so that
    [create_defaults] neither writes them nor reads a mapping from
    them. *)
Definition plain_role (name body : str) : str * SystemRole.t :=
  (name ++ lit ".json",
   SystemRole.Build name (lit "You are " ++ name ++ nl ++ body) None).

Definition plain_defaults : SystemRole.world :=
  SystemRole.World
    (Some (list_to_map [
       plain_role (lit "ShellGPT") DEFAULT_ROLE;
       plain_role (lit "Shell Command Generator") SHELL_ROLE;
       plain_role (lit "Shell Command Descriptor") DESCRIBE_SHELL_ROLE;
       plain_role (lit "Code Generator") CODE_ROLE ]))
    ∅.

(** The world a computation ends in, and its outcome. *)
Definition world_after {A} (m : SystemRole.M A) (w : SystemRole.world)
  : SystemRole.world := (m w).2.
Definition outcome_of {A} (m : SystemRole.M A) (w : SystemRole.world)
  : outcome A := (m w).1.

(** The content of a file of the storage directory, if there is one. *)
Definition file_content (w : SystemRole.world) (file : str)
  : option SystemRole.t :=
  SystemRole.storage w ≫= (.!! file).

(** * Properties *)

(** ** Strings *)

Section StrLemmas.

Implicit Types (p q sub sep s t : str) (c : N).

Lemma truthy_true s : truthy s = true ↔ s ≠ [].
Proof. destruct s; simpl; split; congruence. Qed.

Lemma startswith_app_iff p s : startswith p s = true ↔ ∃ t, s = p ++ t.
Proof.
  revert s. induction p as [|a p IH]; intros s; simpl.
  - split; eauto.
  - destruct s as [|b s].
    + split; [discriminate | intros [t Ht]; discriminate].
    + rewrite andb_true_iff, N.eqb_eq, IH. split.
      * intros [-> [t ->]]. eauto.
      * intros [t Ht]. injection Ht as -> ->. eauto.
Qed.

Lemma startswith_shorter p q s :
  startswith (p ++ q) s = true → startswith p s = true.
Proof.
  rewrite !startswith_app_iff. intros [t ->]. exists (q ++ t).
  by rewrite app_assoc.
Qed.

Lemma startswith_nil_r p : p ≠ [] → startswith p [] = false.
Proof. by destruct p. Qed.

Lemma find_shorter p q s i :
  find (p ++ q) s = Some i → is_Some (find p s).
Proof.
  revert i. induction s as [|c s IH]; intros i; simpl.
  - destruct (startswith (p ++ q) []) eqn:E; [|discriminate].
    intros _. by rewrite (startswith_shorter _ _ _ E).
  - destruct (startswith (p ++ q) (c :: s)) eqn:E.
    + intros _. by rewrite (startswith_shorter _ _ _ E).
    + destruct (find (p ++ q) s) as [j|]; [|discriminate]. intros _.
      destruct (startswith p (c :: s)); [done|].
      destruct (IH j eq_refl) as [k ->]. done.
Qed.

Lemma contains_shorter p q s :
  contains (p ++ q) s = true → contains p s = true.
Proof.
  unfold contains. destruct (find (p ++ q) s) as [i|] eqn:E; [|discriminate].
  intros _. by destruct (find_shorter _ _ _ _ E) as [j ->].
Qed.

(** [find] returns the position of an occurrence... *)
Lemma find_Some_occurrence sub s i :
  find sub s = Some i →
  s = take i s ++ sub ++ drop (i + length sub) s.
Proof.
  revert i. induction s as [|c s IH]; intros i; simpl.
  - destruct (startswith sub []) eqn:E; [|discriminate].
    intros [= <-]. apply startswith_app_iff in E as [t Ht].
    symmetry in Ht. apply app_eq_nil in Ht as [-> ->]. done.
  - destruct (startswith sub (c :: s)) eqn:E.
    + intros [= <-]. apply startswith_app_iff in E as [t Ht].
      rewrite Ht at 1. simpl. f_equal.
      rewrite Ht, drop_app_length. done.
    + destruct (find sub s) as [j|] eqn:F; [|discriminate].
      intros [= <-]. simpl. f_equal. by apply IH.
Qed.

(** ... and of the first one. *)
Lemma find_Some_first sub s i j :
  find sub s = Some i → (j < i)%nat → startswith sub (drop j s) = false.
Proof.
  revert i j. induction s as [|c s IH]; intros i j; simpl.
  - destruct (startswith sub []); [|discriminate]. intros [= <-]. lia.
  - destruct (startswith sub (c :: s)) eqn:E.
    + intros [= <-]. lia.
    + destruct (find sub s) as [k|] eqn:F; [|discriminate].
      intros [= <-] Hj. destruct j as [|j]; [done|].
      simpl. apply (IH k); [done | lia].
Qed.

Lemma find_None_iff sub s :
  find sub s = None ↔ ∀ j, startswith sub (drop j s) = false.
Proof.
  induction s as [|c s IH]; simpl.
  - destruct (startswith sub []) eqn:E.
    + split; [discriminate|]. intros H. specialize (H 0%nat).
      simpl in H. congruence.
    + split; [|done]. intros _ j. by rewrite drop_nil.
  - destruct (startswith sub (c :: s)) eqn:E.
    + split; [discriminate|]. intros H. specialize (H 0%nat).
      simpl in H. congruence.
    + destruct (find sub s) as [k|]; simpl.
      * split; [discriminate|]. intros H.
        assert (Some k = None) as Hk; [|discriminate].
        apply IH. intros j. apply (H (S j)).
      * split; [|done]. intros _ [|j]; [done|]. simpl.
        by apply IH.
Qed.

Lemma find_Some_bound sub s i :
  find sub s = Some i → (i + length sub ≤ length s)%nat.
Proof.
  revert i. induction s as [|c s IH]; intros i; simpl.
  - destruct (startswith sub []) eqn:E; [|discriminate].
    intros [= <-]. apply startswith_app_iff in E as [t Ht].
    symmetry in Ht. apply app_eq_nil in Ht as [-> _]. done.
  - destruct (startswith sub (c :: s)) eqn:E.
    + intros [= <-]. apply startswith_app_iff in E as [t Ht].
      apply (f_equal length) in Ht. rewrite length_app in Ht.
      simpl in *. lia.
    + destruct (find sub s) as [k|]; [|discriminate].
      intros [= <-]. specialize (IH k eq_refl). simpl. lia.
Qed.

(** The rounds of [split] are enough: more rounds change nothing. *)
Lemma split_rounds_stable sep s n m :
  sep ≠ [] → (length s ≤ n)%nat → (length s ≤ m)%nat →
  split_rounds n sep s = split_rounds m sep s.
Proof.
  intros Hsep. revert s m.
  induction n as [|n IH]; intros s m Hn Hm.
  - assert (s = []) as -> by (destruct s; simpl in *; [done | lia]).
    destruct m; simpl; [done|]. by rewrite startswith_nil_r.
  - simpl. destruct (find sep s) as [i|] eqn:F.
    + pose proof (find_Some_bound _ _ _ F) as Hb.
      assert (0 < length sep)%nat by (destruct sep; simpl; [done | lia]).
      destruct m as [|m]; [lia|].
      simpl. rewrite F. f_equal.
      apply IH; rewrite length_drop; lia.
    + destruct m; simpl; [done | by rewrite F].
Qed.

Lemma split_rounds_enough sep s n :
  sep ≠ [] → (length s ≤ n)%nat →
  split_rounds n sep s = split sep s.
Proof. intros. by apply split_rounds_stable. Qed.

Lemma split_found sep s i :
  sep ≠ [] → find sep s = Some i →
  split sep s = take i s :: split sep (drop (i + length sep) s).
Proof.
  intros Hsep F. unfold split at 1.
  pose proof (find_Some_bound _ _ _ F) as Hb.
  assert (0 < length sep)%nat by (destruct sep; simpl; [done | lia]).
  destruct (length s) as [|m] eqn:Hlen; [lia|].
  simpl. rewrite F. f_equal. apply split_rounds_enough; [done|].
  rewrite length_drop. lia.
Qed.

Lemma split_not_found sep s : find sep s = None → split sep s = [s].
Proof.
  intros F. unfold split. destruct (length s); simpl; [done | by rewrite F].
Qed.

(** The first piece of [split] is the part before the separator. *)
Lemma split_head sep s :
  sep ≠ [] → split sep s !! 0%nat = Some (partition sep s).1.1.
Proof.
  intros Hsep. unfold partition. destruct (find sep s) as [i|] eqn:F.
  - by rewrite (split_found _ _ _ Hsep F).
  - by rewrite (split_not_found _ _ F).
Qed.

(** The second piece, when there is one, lies between the first occurrence
    of the separator and the next. *)
Lemma split_second sep s :
  sep ≠ [] → contains sep s = true →
  split sep s !! 1%nat = Some (partition sep (partition sep s).2).1.1.
Proof.
  intros Hsep. unfold contains.
  destruct (find sep s) as [i|] eqn:F; [intros _ | discriminate].
  rewrite (split_found _ _ _ Hsep F). simpl.
  rewrite (split_head _ _ Hsep). unfold partition at 3. by rewrite F.
Qed.

Lemma split_no_second sep s :
  contains sep s = false → split sep s !! 1%nat = None.
Proof.
  unfold contains. destruct (find sep s) eqn:F; [discriminate|].
  intros _. by rewrite (split_not_found _ _ F).
Qed.

Lemma partition_found sep s :
  contains sep s = true →
  (partition sep s).1.2 = sep ∧
  s = (partition sep s).1.1 ++ sep ++ (partition sep s).2.
Proof.
  unfold contains, partition.
  destruct (find sep s) as [i|] eqn:F; [intros _ | discriminate].
  split; [done|]. by apply find_Some_occurrence.
Qed.

Lemma splitlines_from_first line s :
  (is_Some line ∨ s ≠ []) →
  splitlines_from line s !! 0%nat = Some (default [] line ++ first_line s).
Proof.
  revert line. induction s as [|c s IH]; intros line H; simpl.
  - destruct H as [[l ->]|]; [|done]. simpl. by rewrite app_nil_r.
  - destruct (is_linebreak c).
    + simpl. by rewrite app_nil_r.
    + rewrite IH by eauto. simpl. by rewrite <- app_assoc.
Qed.

(** The first element of [splitlines] of a non-empty text is its first
    line. *)
Lemma splitlines_first s :
  s ≠ [] → splitlines s !! 0%nat = Some (first_line s).
Proof. intros H. unfold splitlines. by rewrite splitlines_from_first by eauto. Qed.

Lemma slice_length lo hi s : (length (slice lo hi s) ≤ hi - lo)%nat.
Proof. unfold slice. rewrite length_take. lia. Qed.

End StrLemmas.

(** ** Roles *)

Import SystemRole.

(** Unfolds the sequencing of the methods. *)
Ltac run :=
  unfold mbind, M_bind, mret, M_ret, raise, lift, typer_confirm in *;
  simpl in *.

Lemma dict_truthy_empty : dict_truthy ∅ = false.
Proof. reflexivity. Qed.

Lemma dict_truthy_insert (k v : str) (d : gmap str str) :
  dict_truthy (<[k := v]> d) = true.
Proof.
  unfold dict_truthy. rewrite bool_decide_eq_false_2; [done|].
  apply insert_non_empty.
Qed.

(** [mkdir] leaves an existing directory alone. *)
Lemma mkdir_existing dir reg :
  mkdir (World (Some dir) reg) = (Ok (), World (Some dir) reg).
Proof. reflexivity. Qed.

(** What [__init__] does without variables. *)
Lemma init_plain name role mtr w :
  __init__ name role mtr None w =
    (Ok (Build name role mtr),
     World (Some (default ∅ (storage w))) (cls_message_to_role w)).
Proof. reflexivity. Qed.

(** What [_save] does when it goes through: the file of the role holds the
    instance, whose [role] is the template applied with the first 20
    characters of the old [role] as its third argument; the
    [message_to_role] written is the attribute of the instance. *)
Lemma save_ok confirm self w self' w' :
  _save confirm self w = (Ok self', w') →
  self' = Build (name self)
            (role_template (name self) (role self) (slice 0 20 (role self)))
            (message_to_role self)
  ∧ ∃ dir, storage w = Some dir
     ∧ w' = World (Some (<[_file_path self := self']> dir))
              (cls_message_to_role w).
Proof.
  unfold _save, _exists, path_exists, write_text. run.
  destruct w as [[dir|] reg]; simpl.
  - destruct (bool_decide (is_Some (dir !! _file_path self))); simpl.
    + destruct (confirm _); simpl; [|discriminate].
      intros [= <- <-]. eauto.
    + intros [= <- <-]. eauto.
  - discriminate.
Qed.

(** [_save] goes through when the directory exists and the user does not
    decline to overwrite. *)
Lemma save_runs confirm self dir reg :
  (is_Some (dir !! _file_path self) →
   confirm (lit "Role " ++ dquote ++ name self ++ dquote
              ++ lit " already exists, overwrite it?") = true) →
  ∃ self', _save confirm self (World (Some dir) reg) =
             (Ok self', World (Some (<[_file_path self := self']> dir)) reg).
Proof.
  intros Hc. unfold _save, _exists, path_exists, write_text. run.
  destruct (bool_decide (is_Some (dir !! _file_path self))) eqn:E; simpl.
  - apply bool_decide_eq_true in E. rewrite (Hc E). simpl. eauto.
  - eauto.
Qed.

(** The fallback of [get_role_name]: when the first line does not contain
    the words of the primary test, the window of characters 8 to 27 of the
    line is looked up in the class mapping. *)
Lemma get_role_name_fallback msg w :
  msg ≠ [] → contains (lit "You are") (first_line msg) = false →
  get_role_name msg w =
    (Ok (match cls_message_to_role w !! slice 8 27 (first_line msg) with
         | Some name => if truthy name then Some name else None
         | None => None
         end), w).
Proof.
  intros Hne Hc. unfold get_role_name.
  rewrite (proj2 (truthy_true msg) Hne).
  unfold list_getitem, message_to_role_get. run.
  rewrite (splitlines_first _ Hne). simpl. rewrite Hc. simpl.
  destruct (cls_message_to_role w !! _) as [n|]; [|done].
  by destruct (truthy n).
Qed.

(** [get_role_name] raises exactly on the messages whose first line
    contains the words of the test without the space the split expects
    behind them. *)
Lemma get_role_name_raises_iff msg w :
  (∃ e, outcome_of (get_role_name msg) w = Raise e) ↔
  msg ≠ [] ∧ contains (lit "You are") (first_line msg) = true
  ∧ contains (lit "You are ") (first_line msg) = false.
Proof.
  unfold outcome_of. destruct msg as [|c msg'] eqn:Hm.
  { simpl. split; [intros [e He]; discriminate | intros [? _]; done]. }
  rewrite <- Hm. assert (msg ≠ []) as Hne by (by subst).
  destruct (contains (lit "You are") (first_line msg)) eqn:Hc.
  - unfold get_role_name. rewrite (proj2 (truthy_true msg) Hne).
    unfold list_getitem. run. rewrite (splitlines_first _ Hne). simpl.
    rewrite Hc. simpl.
    destruct (contains (lit "You are ") (first_line msg)) eqn:Hs.
    + rewrite (split_second (lit "You are ") _ ltac:(done) Hs). simpl.
      split; [intros [e He]; discriminate | intros (_ & _ & ?); done].
    + rewrite (split_no_second _ _ Hs). simpl. split; eauto.
  - rewrite (get_role_name_fallback _ _ Hne Hc). simpl.
    split; [intros [e He]; discriminate | intros (_ & ? & _); done].
Qed.

(** The window looked up by the fallback is shorter than the 20 characters
    that [_save] takes from a description of that length or more. *)
Lemma window_shorter_than_key description line :
  (20 ≤ length description)%nat →
  slice 8 27 line ≠ slice 0 20 description.
Proof.
  intros Hlen Heq. apply (f_equal length) in Heq.
  pose proof (slice_length 8 27 line).
  unfold slice in Heq at 2. rewrite length_take, length_drop in Heq. lia.
Qed.

(** [get] on an existing file returns the instance built from its three
    members and changes nothing. *)
Lemma get_existing (name : str) (w : world) (obj : t) :
  file_content w (name ++ lit ".json") = Some obj →
  get name w =
    (Ok (Build (SystemRole.name obj) (role obj) (message_to_role obj)), w).
Proof.
  unfold file_content, get, path_exists, read_text. run.
  destruct w as [[dir|] reg]; simpl; [|done].
  intros H. rewrite H. simpl. rewrite H. reflexivity.
Qed.

(** [get] on a name without a file. *)
Lemma get_missing (name : str) (w : world) :
  file_content w (name ++ lit ".json") = None →
  get name w =
    (Raise (BadArgumentUsage
              (lit "Role " ++ dquote ++ name ++ dquote ++ lit " not found.")),
     w).
Proof.
  unfold file_content, get, path_exists. run.
  destruct w as [[dir|] reg]; simpl; [|done].
  intros ->. reflexivity.
Qed.

(** A loop raises as soon as one of its elements makes the body raise in
    every world. *)
Lemma for_each_raises {A} (l : list A) (body : A → M ()) (x : A) :
  x ∈ l →
  (∀ w, ∃ e, body x w = (Raise e, w)) →
  ∀ w, ∃ e w', for_each l body w = (Raise e, w').
Proof.
  intros Hx Hbody. induction l as [|a l IH]; intros w.
  - by apply elem_of_nil in Hx.
  - simpl. run. destruct (body a w) as [[[]|e] w1] eqn:Ea.
    + apply elem_of_cons in Hx as [->|Hx].
      * destruct (Hbody w) as [e He]. congruence.
      * apply (IH Hx).
    + eauto.
Qed.

(** A record whose mapping is a non-empty dictionary without the member
    [name] stops the second loop of [create_defaults]. *)
Lemma load_message_to_role_unnamed (file : str) (obj : t)
    (d : gmap str str) (w : world) :
  endswith (lit ".json") file = true →
  message_to_role obj = Some d →
  d ≠ ∅ → d !! lit "name" = None →
  load_message_to_role (file, obj) w = (Raise (KeyError (lit "name")), w).
Proof.
  intros Hjson Hd Hne Hname. unfold load_message_to_role.
  rewrite Hjson, Hd. unfold dict_truthy, dict_getitem.
  rewrite bool_decide_eq_false_2 by done. run. by rewrite Hname.
Qed.

(** So does [create_defaults] fail on every storage directory in which
    such a record is found after seeding, as on those it has seeded
    itself before. *)
Lemma scan_raises_on_unnamed (file : str) (obj : t) (d : gmap str str)
    (dir : gmap str t) (reg : gmap str str) :
  dir !! file = Some obj →
  endswith (lit ".json") file = true →
  message_to_role obj = Some d →
  d ≠ ∅ → d !! lit "name" = None →
  ∃ e w', (iterdir ≫= λ files, for_each files load_message_to_role)
            (World (Some dir) reg) = (Raise e, w').
Proof.
  intros Hfile Hjson Hd Hne Hname. unfold iterdir. run.
  apply (for_each_raises _ _ (file, obj)).
  - by apply elem_of_map_to_list.
  - intros w. eexists. by eapply load_message_to_role_unnamed.
Qed.

(** The model of [str.format] on a template line: the two fields are
    replaced, and a field without a variable raises [KeyError]. *)
Example format_both_fields :
  format (lit "Provide only {shell} commands for {os}.")
    {[ lit "shell" := lit "bash"; lit "os" := lit "Linux" ]}
  = Ok (lit "Provide only bash commands for Linux.").
Proof. vm_compute. reflexivity. Qed.

Example format_missing_variable :
  format (lit "Provide only {shell} commands for {os}.")
    {[ lit "os" := lit "Linux" ]}
  = Raise (KeyError (lit "shell")).
Proof. vm_compute. reflexivity. Qed.

(** [__init__] with variables substitutes them. *)
Example init_with_variables :
  outcome_of
    (__init__ (lit "sh") (lit "Use {shell}.") None
       (Some {[ lit "shell" := lit "zsh" ]})) fresh
  = Ok (Build (lit "sh") (lit "Use zsh.") None).
Proof. vm_compute. reflexivity. Qed.

(** ** The claims *)

(** C1. Fallback identification of a saved role.  A role named [r] is
    created with the description [short desc]; its identification key,
    the first 20 characters of the description, is the description
    itself.  The next process bootstraps and resolves a message whose
    first line carries that very text at offsets 8 to 27.  The result is
    "no role": the key of the saved role never reached the mapping. *)
Theorem fallback_misses_saved_role :
  let description := lit "short desc" in
  let message := lit "system: short desc" in
  let w1 := world_after (create accept (answer description) (lit "r"))
              plain_defaults in
  let w2 := world_after (create_defaults accept (lit "Linux") (lit "bash"))
              (restart w1) in
  file_content w1 (lit "r.json") = Some (Build (lit "r") description None)
  ∧ outcome_of (create_defaults accept (lit "Linux") (lit "bash"))
      (restart w1) = Ok ()
  ∧ contains (lit "You are ") (first_line message) = false
  ∧ slice 8 27 (first_line message) = slice 0 20 description
  ∧ cls_message_to_role w2 = ∅
  ∧ get_role_name message w2 = (Ok None, w2).
Proof. vm_compute. repeat split; reflexivity. Qed.

(** C2. The identification key in the persisted record.  Creating a role
    whose description starts with [Provide only code as] writes a file
    whose [message_to_role] member is null: the first 20 characters of the
    description are computed by [_save] but are no part of what it
    writes. *)
Theorem save_drops_identification_key :
  let description :=
    lit "Provide only code as output without any description." in
  let w1 := world_after (create accept (answer description) (lit "r")) fresh in
  slice 0 20 description = lit "Provide only code as"
  ∧ outcome_of (create accept (answer description) (lit "r")) fresh
    = Ok (Build (lit "r") description None)
  ∧ file_content w1 (lit "r.json") = Some (Build (lit "r") description None)
  ∧ (file_content w1 (lit "r.json") ≫= message_to_role) = None.
Proof. vm_compute. repeat split; reflexivity. Qed.

(** C3. The build phase after seeding.  On a fresh storage directory,
    whatever the operating system and shell names are, [create_defaults]
    raises [KeyError] on the member [name] while it scans the records it
    has just seeded, and the mapping is left empty. *)
Theorem create_defaults_fresh_raises (confirm : str → bool) (os shell : str) :
  create_defaults confirm os shell fresh =
    (Raise (KeyError (lit "name")),
     world_after (seed_defaults confirm os shell) fresh)
  ∧ cls_message_to_role (world_after (create_defaults confirm os shell) fresh)
    = ∅.
Proof. vm_compute. split; reflexivity. Qed.

(** C4. Identification and exceptions.  On a message whose first line has
    the words [You are] but not followed by a space, [get_role_name]
    raises [IndexError], in every world. *)
Theorem get_role_name_raises (w : world) :
  get_role_name (lit "You aren't needed") w = (Raise IndexError, w).
Proof. reflexivity. Qed.

(** C5 (as stated, refuted).  Saving the role named [X] with the
    description [X] persists the body [X], not the form with the
    [You are] prefix. *)
Lemma save_no_persona_prefix :
  let w1 := world_after (create accept (answer (lit "X")) (lit "X")) fresh in
  truthy (lit "X") = true
  ∧ (role <$> file_content w1 (lit "X.json")) = Some (lit "X")
  ∧ (role <$> file_content w1 (lit "X.json"))
    ≠ Some (lit "You are X" ++ nl ++ lit "X").
Proof.
  vm_compute. split; [reflexivity|]. split; [reflexivity|]. discriminate.
Qed.

(** C5 (amended).  [role_template] yields the form [You are name],
    newline, description exactly when its third argument is empty: with a
    non-empty third argument it yields the description unchanged.  [_save]
    passes the first 20 characters of the description there.  So whenever
    a role is saved, the body persisted in its file is the description
    unchanged if the description is non-empty, and [You are name] followed
    by a newline if it is empty.  For the name and description [X] the
    template with an empty third argument gives [You are X], newline,
    [X]. *)
Theorem save_rendered_body (confirm : str → bool) (self self' : t)
    (w w' : world) :
  _save confirm self w = (Ok self', w') →
  file_content w' (_file_path self) = Some self'
  ∧ (role self ≠ [] → role self' = role self)
  ∧ (role self = [] → role self' = lit "You are " ++ name self ++ nl)
  ∧ (∀ name description,
       role_template name description [] =
         lit "You are " ++ name ++ nl ++ description)
  ∧ role_template (lit "X") (lit "X") [] = lit "You are X" ++ nl ++ lit "X"
  ∧ (∀ name description flag,
       flag ≠ [] → role_template name description flag = description)
  ∧ (∀ name description flag,
       role_template name description flag
       = lit "You are " ++ name ++ nl ++ description → flag = [])
  ∧ role self' = role_template (name self) (role self) (slice 0 20 (role self)).
Proof.
  intros H. apply save_ok in H as (-> & dir & Hdir & ->).
  split; [|split; [|split; [|split; [|split; [|split; [|split]]]]]].
  - unfold file_content. simpl. by rewrite lookup_insert_eq.
  - simpl. intros Hne. destruct (role self) as [|c r]; [done|]. done.
  - simpl. intros ->. reflexivity.
  - done.
  - reflexivity.
  - intros n d [|c flag] Hflag; [done | reflexivity].
  - intros n d [|c flag]; [done|]. unfold role_template. simpl truthy.
    cbv iota. intros Heq. apply (f_equal length) in Heq.
    rewrite !length_app in Heq. simpl in Heq. lia.
  - reflexivity.
Qed.

Lemma save_rendered_body_witness :
  let self := Build (lit "X") (lit "X") None in
  ∃ self' w', _save accept self (World (Some ∅) ∅) = (Ok self', w')
    ∧ file_content w' (lit "X.json") = Some self'
    ∧ role self' = lit "X".
Proof.
  pose (self := Build (lit "X") (lit "X") None).
  destruct (save_runs accept self ∅ ∅) as [self' Hs].
  { intros _. reflexivity. }
  exists self', (World (Some (<[_file_path self := self']> ∅)) ∅).
  destruct (save_rendered_body accept self self' _ _ Hs)
    as (Hfile & Hrole & _).
  split; [exact Hs|]. split; [exact Hfile|].
  apply Hrole. discriminate.
Defined.

(** C6. Seeding the built-in roles.  On a fresh storage directory,
    whatever the operating system and shell names are, the records that
    [create_defaults] persists carry the templates as they are written in
    the source, with the placeholders [{shell}] and [{os}] still in them;
    the dictionary with the two names is written as the [message_to_role]
    member instead. *)
Theorem create_defaults_keeps_placeholders
    (confirm : str → bool) (os shell : str) :
  let w1 := world_after (create_defaults confirm os shell) fresh in
  let variables : gmap str str := {[ lit "shell" := shell; lit "os" := os ]} in
  file_content w1 (lit "Shell Command Generator.json")
    = Some (Build (lit "Shell Command Generator") SHELL_ROLE (Some variables))
  ∧ file_content w1 (lit "ShellGPT.json")
    = Some (Build (lit "ShellGPT") DEFAULT_ROLE (Some variables))
  ∧ contains (lit "{shell}") SHELL_ROLE = true
  ∧ contains (lit "{os}") SHELL_ROLE = true
  ∧ contains (lit "{os}") DEFAULT_ROLE = true
  ∧ contains (lit "{shell}") DEFAULT_ROLE = true.
Proof. vm_compute. repeat split; reflexivity. Qed.

(** C7 (as stated, refuted).  The first line [You are A You are B]
    contains [You are ], and everything that follows its first occurrence
    is [A You are B]; [get_role_name] returns [A]. *)
Lemma primary_stops_at_next_occurrence :
  let message := lit "You are A You are B" in
  contains (lit "You are ") (first_line message) = true
  ∧ strip (partition (lit "You are ") (first_line message)).2
    = lit "A You are B"
  ∧ ∀ w, get_role_name message w = (Ok (Some (lit "A")), w)
         ∧ get_role_name message w
           ≠ (Ok (Some (strip (partition (lit "You are ")
                                 (first_line message)).2)), w).
Proof.
  split; [reflexivity|]. split; [reflexivity|].
  intros w. split; [reflexivity|]. vm_compute. discriminate.
Qed.

(** C7 (amended).  For every non-empty message whose first line contains
    [You are ], [get_role_name] returns the text between the first
    occurrence of [You are ] and the next one, or the end of the first
    line when there is no other, with surrounding whitespace trimmed.  The
    class mapping is not consulted: the result is the same in every
    world. *)
Theorem get_role_name_primary (msg : str) (w : world) :
  msg ≠ [] →
  contains (lit "You are ") (first_line msg) = true →
  get_role_name msg w =
    (Ok (Some (strip
       (partition (lit "You are ")
          (partition (lit "You are ") (first_line msg)).2).1.1)), w).
Proof.
  intros Hne Hs. unfold get_role_name.
  rewrite (proj2 (truthy_true msg) Hne).
  unfold list_getitem. run. rewrite (splitlines_first _ Hne). simpl.
  pose proof (contains_shorter (lit "You are") (lit " ") _ Hs) as Hc.
  simpl in Hc. rewrite Hc. simpl.
  by rewrite (split_second (lit "You are ") _ ltac:(done) Hs).
Qed.

Lemma get_role_name_primary_witness :
  let message :=
    lit "You are ShellGPT" ++ nl ++ lit "You are managing Linux." in
  message ≠ []
  ∧ contains (lit "You are ") (first_line message) = true
  ∧ get_role_name message fresh = (Ok (Some (lit "ShellGPT")), fresh).
Proof.
  split; [discriminate|]. split; [reflexivity|].
  rewrite get_role_name_primary; [reflexivity | discriminate | reflexivity].
Defined.

(** Round trip of the record.  With the content of a file taken as the
    record itself, whenever [create] goes through, [get] on the same name
    returns the very instance that was saved, and changes nothing: [get]
    renders and substitutes nothing.  What the encodings do to the text
    of the file is left aside here; see [read_back_garbles_description]. *)
Theorem create_get_roundtrip (confirm : str → bool) (prompt : str → str)
    (name : str) (w w' : world) (saved : t) :
  create confirm prompt name w = (Ok saved, w') →
  get name w' = (Ok saved, w')
  ∧ role saved =
      role_template name (prompt (lit "Enter role description"))
        (slice 0 20 (prompt (lit "Enter role description"))).
Proof.
  unfold create. run. intros H.
  apply save_ok in H as (Hs & dir & Hdir & ->). simpl in *.
  split; [|by rewrite Hs].
  rewrite (get_existing name _ saved).
  - by rewrite Hs.
  - unfold file_content, _file_path. simpl. apply lookup_insert_eq.
Qed.

Lemma create_get_roundtrip_witness :
  let saved := Build (lit "r") (lit "Answer in French.") None in
  let w' := World (Some {[ lit "r.json" := saved ]}) ∅ in
  create accept (answer (lit "Answer in French.")) (lit "r") fresh
    = (Ok saved, w')
  ∧ get (lit "r") w' = (Ok saved, w').
Proof.
  assert (create accept (answer (lit "Answer in French.")) (lit "r") fresh
          = (Ok (Build (lit "r") (lit "Answer in French.") None),
             World (Some {[ lit "r.json" :=
                  Build (lit "r") (lit "Answer in French.") None ]}) ∅))
    as Hc by reflexivity.
  split; [exact Hc|].
  exact (proj1 (create_get_roundtrip _ _ _ _ _ _ Hc)).
Defined.

(** Text in ASCII survives the two encodings. *)
Lemma utf8_encode_ascii (text : str) :
  forallb (λ c, c <? 128) text = true →
  Codec.utf8_encode text = Some text.
Proof.
  unfold Codec.utf8_encode. intros H.
  assert (mapM Codec.utf8_encode_char text = Some ((λ c, [c]) <$> text))
    as ->.
  { apply mapM_Some. induction text as [|c text IH]; [constructor|].
    simpl in H. apply andb_true_iff in H as [Hc Htext].
    constructor; [|by apply IH].
    unfold Codec.utf8_encode_char. by rewrite Hc. }
  cbn [fmap option_fmap option_map]. f_equal. clear H.
  induction text as [|c text IH]; [done|].
  rewrite fmap_cons. cbn [concat app]. f_equal. exact IH.
Qed.

Lemma cp1252_decode_ascii (data : list N) :
  forallb (λ c, c <? 128) data = true →
  Codec.cp1252_decode data = Some data.
Proof.
  unfold Codec.cp1252_decode. intros H. apply mapM_Some.
  induction data as [|c data IH]; [constructor|].
  simpl in H. apply andb_true_iff in H as [Hc Hdata].
  constructor; [|by apply IH].
  unfold Codec.cp1252_decode_byte. by rewrite Hc.
Qed.

Lemma read_back_ascii (text : str) :
  forallb (λ c, c <? 128) text = true →
  Codec.read_back_cp1252 text = Some text.
Proof.
  intros H. unfold Codec.read_back_cp1252.
  rewrite (utf8_encode_ascii _ H). simpl. by apply cp1252_decode_ascii.
Qed.

(** C8. Round trip of the rendered body.  In a locale whose encoding is the
    code page 1252, a role is created with the description
    [Réponds en français.]; that description is the body rendered at
    creation.  The file is written in UTF-8 and read back with the
    encoding of the locale: the text that [get] parses is the JSON text of
    a record whose body has two characters in the place of each accented
    letter, so the body that [get] returns is not the body rendered at
    creation. *)
Theorem read_back_garbles_description :
  let description :=
    lit "R" ++ [233] ++ lit "ponds en fran" ++ [231] ++ lit "ais." in
  let garbled :=
    lit "R" ++ [195; 169] ++ lit "ponds en fran" ++ [195; 167] ++ lit "ais." in
  outcome_of (create accept (answer description) (lit "r")) fresh
  = Ok (Build (lit "r") description None)
  ∧ Codec.read_back_cp1252 (Codec.dumps_created (lit "r") description)
    = Some (Codec.dumps_created (lit "r") garbled)
  ∧ garbled ≠ description.
Proof.
  split; [reflexivity|]. split; [vm_compute; reflexivity | discriminate].
Qed.

(** C9. Declined deletion.  When the file of a role exists and the user
    declines the confirmation, [delete] ends in the cancellation
    [typer.Abort] and leaves the world as it was: the file still exists
    and no record has changed. *)
Theorem delete_declined (confirm : str → bool) (self : t) (w : world) :
  outcome_of (_exists self) w = Ok true →
  confirm (lit "Role " ++ dquote ++ name self ++ dquote
             ++ lit " exist, delete it?") = false →
  delete confirm self w = (Raise Abort, w)
  ∧ outcome_of (_exists self) (world_after (delete confirm self) w) = Ok true.
Proof.
  intros Hex Hc.
  assert (delete confirm self w = (Raise Abort, w)) as Hd.
  { unfold outcome_of in Hex. unfold delete, _exists, path_exists in *. run.
    injection Hex as ->. simpl. rewrite Hc. reflexivity. }
  split; [exact Hd|]. unfold world_after. by rewrite Hd.
Qed.

Lemma delete_declined_witness :
  let self := Build (lit "r") (lit "Answer in French.") None in
  let w := World (Some {[ lit "r.json" := self ]}) ∅ in
  delete decline self w = (Raise Abort, w)
  ∧ file_content w (lit "r.json") = Some self.
Proof.
  split; [|reflexivity].
  apply (delete_declined decline (Build (lit "r") (lit "Answer in French.") None));
    reflexivity.
Defined.

(** C10. Empty variables.  [__init__] with an empty dictionary of
    variables does what it does without one: no substitution is attempted
    and nothing is raised, placeholders or not, the [role] of the instance
    is the text given, and the storage directory is created as usual. *)
Theorem init_empty_variables (name role : str)
    (mtr : option (gmap str str)) (w : world) :
  __init__ name role mtr (Some ∅) w = __init__ name role mtr None w
  ∧ __init__ name role mtr (Some ∅) w =
      (Ok (Build name role mtr),
       World (Some (default ∅ (storage w))) (cls_message_to_role w)).
Proof. split; reflexivity. Qed.

(** * Further properties of the code *)

(** ** Identification *)

Lemma contains_true_iff (sub s : str) :
  contains sub s = true ↔ ∃ pre post, s = pre ++ sub ++ post.
Proof.
  unfold contains. split.
  - destruct (find sub s) as [i|] eqn:F; [intros _ | discriminate].
    eexists _, _. by apply find_Some_occurrence.
  - intros (pre & post & ->).
    destruct (find sub (pre ++ sub ++ post)) eqn:F; [done|].
    pose proof (proj1 (find_None_iff _ _) F (length pre)) as H.
    rewrite drop_app_length in H.
    assert (startswith sub (sub ++ post) = true) as H'
      by (apply startswith_app_iff; eauto).
    congruence.
Qed.

Lemma first_line_app (a b : str) :
  forallb (λ c, negb (is_linebreak c)) a = true →
  first_line (a ++ nl ++ b) = a.
Proof.
  unfold nl. induction a as [|c a IH]; simpl in *; [done|].
  rewrite andb_true_iff, negb_true_iff. intros [-> Ha]. by rewrite IH.
Qed.

(** The primary path of [get_role_name], by the piece it takes. *)
Lemma get_role_name_piece (msg piece : str) (w : world) :
  msg ≠ [] →
  split (lit "You are ") (first_line msg) !! 1%nat = Some piece →
  get_role_name msg w = (Ok (Some (strip piece)), w).
Proof.
  intros Hne Hp.
  destruct (contains (lit "You are ") (first_line msg)) eqn:Hs;
    [|by rewrite (split_no_second _ _ Hs) in Hp].
  pose proof (contains_shorter (lit "You are") (lit " ") _ Hs) as Hc.
  unfold get_role_name. rewrite (proj2 (truthy_true msg) Hne).
  unfold list_getitem. run. rewrite (splitlines_first _ Hne). simpl.
  simpl in Hc. rewrite Hc. simpl. simpl in Hp. by rewrite Hp.
Qed.

(** X1. [get_role_name] raises nothing but [IndexError], and it raises it
    exactly on the non-empty messages whose first line contains [You are]
    but not [You are ] with the space. *)
Theorem get_role_name_raises_exactly (msg : str) (w : world) (e : exn) :
  outcome_of (get_role_name msg) w = Raise e ↔
  e = IndexError ∧ msg ≠ []
  ∧ contains (lit "You are") (first_line msg) = true
  ∧ contains (lit "You are ") (first_line msg) = false.
Proof.
  unfold outcome_of. destruct msg as [|c msg'] eqn:Hm.
  { simpl. split; [discriminate | intros (_ & ? & _); done]. }
  rewrite <- Hm. assert (msg ≠ []) as Hne by (by subst).
  destruct (contains (lit "You are") (first_line msg)) eqn:Hc.
  - destruct (contains (lit "You are ") (first_line msg)) eqn:Hs.
    + pose proof (split_second (lit "You are ") _ ltac:(done) Hs) as Hp.
      rewrite (get_role_name_piece _ _ w Hne Hp). simpl.
      split; [discriminate | intros (_ & _ & _ & ?); done].
    + unfold get_role_name. rewrite (proj2 (truthy_true msg) Hne).
      unfold list_getitem. run. rewrite (splitlines_first _ Hne). simpl.
      rewrite Hc. simpl. rewrite (split_no_second _ _ Hs). simpl.
      split; [by intros [= <-] | by intros (-> & _)].
  - rewrite (get_role_name_fallback _ _ Hne Hc). simpl.
    split; [discriminate | intros (_ & _ & ? & _); done].
Qed.

(** X2. [get_role_name] looks at the first line only: two non-empty
    messages with the same first line give the same result. *)
Theorem get_role_name_first_line_only (msg1 msg2 : str) (w : world) :
  msg1 ≠ [] → msg2 ≠ [] → first_line msg1 = first_line msg2 →
  get_role_name msg1 w = get_role_name msg2 w.
Proof.
  intros H1 H2 Heq. unfold get_role_name.
  rewrite (proj2 (truthy_true msg1) H1), (proj2 (truthy_true msg2) H2).
  unfold list_getitem. run.
  rewrite (splitlines_first _ H1), (splitlines_first _ H2), Heq.
  reflexivity.
Qed.

Lemma get_role_name_first_line_only_witness :
  get_role_name (lit "system: Be brief." ++ nl ++ lit "Use French.") fresh
  = get_role_name (lit "system: Be brief." ++ nl ++ lit "Use German.") fresh.
Proof.
  apply get_role_name_first_line_only; [discriminate | discriminate | reflexivity].
Defined.

(** X3. The fallback.  When the first line does not contain [You are],
    [get_role_name] returns a name exactly when the class mapping holds it
    for the characters 8 to 27 of the line and it is not the empty string;
    otherwise it returns [None].  The world is not changed. *)
Theorem fallback_returns_mapped_name (msg : str) (w : world) :
  msg ≠ [] → contains (lit "You are") (first_line msg) = false →
  (∀ name, get_role_name msg w = (Ok (Some name), w) ↔
     cls_message_to_role w !! slice 8 27 (first_line msg) = Some name
     ∧ name ≠ [])
  ∧ (get_role_name msg w = (Ok None, w) ↔
     ∀ name, cls_message_to_role w !! slice 8 27 (first_line msg) = Some name
             → name = []).
Proof.
  intros Hne Hc. rewrite (get_role_name_fallback _ _ Hne Hc).
  destruct (cls_message_to_role w !! _) as [n|]; simpl.
  - destruct n as [|c n]; simpl.
    + split.
      * intros name. split; [discriminate | intros [[= <-] ?]; done].
      * split; [by intros _ name [= <-] | done].
    + split.
      * intros name. split; [by intros [= <-] | by intros [[= <-] _]].
      * split; [discriminate | intros H; by specialize (H _ eq_refl)].
  - split.
    + intros name. split; [discriminate | intros [? _]; done].
    + split; [done | done].
Qed.

Lemma fallback_returns_mapped_name_witness :
  let w := World None {[ lit "Translate to French" := lit "to-french" ]} in
  get_role_name (lit "system: Translate to French, please.") w
  = (Ok (Some (lit "to-french")), w).
Proof.
  apply (fallback_returns_mapped_name
           (lit "system: Translate to French, please.")
           (World None {[ lit "Translate to French" := lit "to-french" ]}));
    [discriminate | reflexivity |].
  split; [reflexivity | discriminate].
Defined.

Lemma find_at_start (sub s : str) : find sub (sub ++ s) = Some 0%nat.
Proof.
  assert (startswith sub (sub ++ s) = true) as H
    by (apply startswith_app_iff; eauto).
  destruct (sub ++ s); simpl; by rewrite H.
Qed.

Lemma split_second_at_start (sep s : str) :
  sep ≠ [] → contains sep s = false →
  split sep (sep ++ s) !! 1%nat = Some s.
Proof.
  intros Hsep Hs.
  rewrite (split_found _ _ _ Hsep (find_at_start sep s)). simpl.
  rewrite drop_app_length. rewrite split_not_found; [done|].
  unfold contains in Hs. by destruct (find sep s).
Qed.

(** X4. The prefix form is self-describing.  From a body that
    [role_template] renders with the [You are] prefix, [get_role_name]
    recovers the name with surrounding whitespace trimmed, whatever the
    description and the class mapping are, provided the name has no line
    boundary and does not itself contain [You are ]. *)
Theorem get_role_name_of_prefix_form (name description : str) (w : world) :
  forallb (λ c, negb (is_linebreak c)) name = true →
  contains (lit "You are ") name = false →
  get_role_name (role_template name description []) w
  = (Ok (Some (strip name)), w).
Proof.
  intros Hnl Hc. unfold role_template. simpl truthy. cbv iota.
  apply get_role_name_piece; [done|].
  rewrite (app_assoc (lit "You are ") name).
  rewrite first_line_app.
  - by apply split_second_at_start.
  - rewrite forallb_app, Hnl. reflexivity.
Qed.

Lemma get_role_name_of_prefix_form_witness :
  get_role_name
    (role_template (lit "Code Generator") (lit "Provide only code.") []) fresh
  = (Ok (Some (lit "Code Generator")), fresh).
Proof.
  apply (get_role_name_of_prefix_form (lit "Code Generator")
           (lit "Provide only code.") fresh); reflexivity.
Defined.

(** X5. [same_role] holds exactly for the messages in which [You are ]
    followed by the name of the role occurs somewhere, on any line. *)
Theorem same_role_iff_occurs (self : t) (initial_message : str) :
  same_role self initial_message = true ↔
  ∃ pre post, initial_message = pre ++ lit "You are " ++ name self ++ post.
Proof.
  unfold same_role. rewrite andb_true_iff, contains_true_iff, truthy_true.
  split.
  - intros [_ (pre & post & ->)]. exists pre, post.
    by rewrite <- (app_assoc (lit "You are ")).
  - intros (pre & post & ->). split.
    + destruct pre; discriminate.
    + exists pre, post. by rewrite <- (app_assoc (lit "You are ")).
Qed.

(** X6. [same_role] does not tell a role from one whose name starts with
    its name: a message accepted for the longer name is accepted for the
    shorter one. *)
Theorem same_role_shorter_name (self other : t) (rest msg : str) :
  name other = name self ++ rest →
  same_role other msg = true → same_role self msg = true.
Proof.
  intros Hn. unfold same_role. rewrite !andb_true_iff, Hn.
  intros [Ht Hc]. split; [done|].
  rewrite app_assoc in Hc. by apply contains_shorter in Hc.
Qed.

Lemma same_role_shorter_name_witness :
  let shell := Build (lit "Shell") [] None in
  let shellgpt := Build (lit "ShellGPT") [] None in
  same_role shellgpt (lit "You are ShellGPT") = true
  ∧ same_role shell (lit "You are ShellGPT") = true.
Proof.
  split; [reflexivity|].
  apply (same_role_shorter_name (Build (lit "Shell") [] None)
           (Build (lit "ShellGPT") [] None) (lit "GPT")); reflexivity.
Defined.

(** ** The store *)

(** The three ways [delete] can go. *)
Lemma delete_cases (confirm : str → bool) (self : t) (w : world) :
  delete confirm self w =
    match file_content w (_file_path self) with
    | None => (Raise FileNotFoundError, w)
    | Some _ =>
        if confirm (lit "Role " ++ dquote ++ name self ++ dquote
                      ++ lit " exist, delete it?")
        then (Ok (), World (base.delete (_file_path self) <$> storage w)
                       (cls_message_to_role w))
        else (Raise Abort, w)
    end.
Proof.
  unfold delete, _exists, path_exists, unlink, file_content. run.
  destruct w as [[dir|] reg]; simpl; [|done].
  destruct (dir !! _file_path self) as [obj|] eqn:E; simpl.
  - destruct (confirm _); simpl; [|done]. by rewrite E.
  - by rewrite E.
Qed.

(** The two ways [create] can go. *)
Lemma create_cases (confirm : str → bool) (prompt : str → str)
    (name : str) (w : world) :
  let description := prompt (lit "Enter role description") in
  let saved :=
    Build name (role_template name description (slice 0 20 description))
      None in
  let dir := default ∅ (storage w) in
  create confirm prompt name w =
    if bool_decide (is_Some (file_content w (name ++ lit ".json")))
       && negb (confirm (lit "Role " ++ dquote ++ name ++ dquote
                           ++ lit " already exists, overwrite it?"))
    then (Raise Abort, World (Some dir) (cls_message_to_role w))
    else (Ok saved,
          World (Some (<[name ++ lit ".json" := saved]> dir))
            (cls_message_to_role w)).
Proof.
  unfold create, _save, _exists, path_exists, write_text, file_content,
    _file_path. run.
  destruct w as [[dir|] reg]; simpl.
  - destruct (bool_decide (is_Some _)); simpl; [|done].
    by destruct (confirm _).
  - done.
Qed.

(** The two ways [get] can go, by the key [name.json]. *)
Lemma get_cases (name : str) (w : world) :
  get name w =
    match file_content w (name ++ lit ".json") with
    | Some obj => (Ok obj, w)
    | None =>
        (Raise (BadArgumentUsage
                  (lit "Role " ++ dquote ++ name ++ dquote
                     ++ lit " not found.")), w)
    end.
Proof.
  destruct (file_content w (name ++ lit ".json")) as [obj|] eqn:E.
  - rewrite (get_existing _ _ _ E). by destruct obj.
  - by apply get_missing.
Qed.





(** X9. A confirmed [delete] removes the file of the role and nothing
    else: afterwards [get] on its name raises [BadArgumentUsage], every
    other file has the content it had, and the class mapping is the
    same. *)
Theorem delete_confirmed (confirm : str → bool) (self : t) (w : world) :
  is_Some (file_content w (_file_path self)) →
  confirm (lit "Role " ++ dquote ++ name self ++ dquote
             ++ lit " exist, delete it?") = true →
  let w' := world_after (delete confirm self) w in
  outcome_of (delete confirm self) w = Ok ()
  ∧ file_content w' (_file_path self) = None
  ∧ (∃ msg, outcome_of (get (name self)) w' = Raise (BadArgumentUsage msg))
  ∧ (∀ file, file ≠ _file_path self →
       file_content w' file = file_content w file)
  ∧ cls_message_to_role w' = cls_message_to_role w.
Proof.
  intros [obj Hobj] Hc. unfold world_after, outcome_of.
  rewrite delete_cases, Hobj, Hc. simpl.
  assert (file_content
            (World (base.delete (_file_path self) <$> storage w)
               (cls_message_to_role w)) (_file_path self) = None) as Hgone.
  { unfold file_content. simpl. destruct (storage w) as [dir|]; simpl; [|done].
    apply lookup_delete_eq. }
  split; [done|]. split; [done|]. split; [|split; [|done]].
  - pose proof (get_cases (name self)
                  (World (base.delete (_file_path self) <$> storage w)
                     (cls_message_to_role w))) as Hg.
    change (name self ++ lit ".json") with (_file_path self) in Hg.
    rewrite Hgone in Hg. rewrite Hg. eauto.
  - intros file Hne. unfold file_content. simpl.
    destruct (storage w) as [dir|]; simpl; [|done].
    by apply lookup_delete_ne.
Qed.

Lemma delete_confirmed_witness :
  let self := Build (lit "r") (lit "Answer in French.") None in
  let w := World (Some {[ lit "r.json" := self ]}) ∅ in
  outcome_of (delete accept self) w = Ok ()
  ∧ file_content (world_after (delete accept self) w) (lit "r.json") = None.
Proof.
  pose (self := Build (lit "r") (lit "Answer in French.") None).
  pose (w := World (Some {[ lit "r.json" := self ]}) ∅).
  destruct (delete_confirmed accept self w) as (H1 & H2 & _).
  - eexists. reflexivity.
  - reflexivity.
  - split; [exact H1 | exact H2].
Defined.



(** X11. [create] on a name that has a file, with the overwrite declined,
    ends in [typer.Abort]; the file keeps its content and nothing else
    changes. *)
Theorem create_declined (confirm : str → bool) (prompt : str → str)
    (name : str) (dir : gmap str t) (reg : gmap str str) :
  let w := World (Some dir) reg in
  is_Some (file_content w (name ++ lit ".json")) →
  confirm (lit "Role " ++ dquote ++ name ++ dquote
             ++ lit " already exists, overwrite it?") = false →
  create confirm prompt name w = (Raise Abort, w).
Proof.
  intros w Hfile Hc. rewrite create_cases, Hc.
  by rewrite bool_decide_eq_true_2.
Qed.

Lemma create_declined_witness :
  let old := Build (lit "r") (lit "Answer in French.") None in
  let w := World (Some {[ lit "r.json" := old ]}) ∅ in
  create decline (answer (lit "Answer in German.")) (lit "r") w
  = (Raise Abort, w)
  ∧ file_content w (lit "r.json") = Some old.
Proof.
  split; [|reflexivity].
  apply (create_declined decline (answer (lit "Answer in German.")) (lit "r")
           {[ lit "r.json" := Build (lit "r") (lit "Answer in French.") None ]}
           ∅).
  - eexists. reflexivity.
  - reflexivity.
Defined.

(** X12. A [create] that goes through, for a name that is a single path
    component, writes the file of the name, with the instance it returns,
    and nothing else: every other file and the class mapping are as
    before.  The instance carries no [message_to_role]. *)
Theorem create_writes_own_file (confirm : str → bool) (prompt : str → str)
    (name : str) (w w' : world) (saved : t) :
  plain_component name = true →
  create confirm prompt name w = (Ok saved, w') →
  file_content w' (name ++ lit ".json") = Some saved
  ∧ SystemRole.name saved = name
  ∧ message_to_role saved = None
  ∧ (∀ file : str, file ≠ name ++ lit ".json" →
       file_content w' file = file_content w file)
  ∧ cls_message_to_role w' = cls_message_to_role w.
Proof.
  intros _. rewrite create_cases.
  destruct (_ && _); [discriminate|]. intros [= <- <-].
  unfold file_content. simpl.
  split; [apply lookup_insert_eq|]. split; [done|]. split; [done|].
  split; [|done]. intros file Hne.
  rewrite lookup_insert_ne by done. by destruct (storage w).
Qed.

Lemma create_writes_own_file_witness :
  let other := Build (lit "q") (lit "Answer in German.") None in
  let w := World (Some {[ lit "q.json" := other ]}) ∅ in
  let w' := world_after (create accept (answer (lit "Be brief.")) (lit "r")) w in
  file_content w' (lit "r.json") = Some (Build (lit "r") (lit "Be brief.") None)
  ∧ file_content w' (lit "q.json") = Some other.
Proof.
  pose (other := Build (lit "q") (lit "Answer in German.") None).
  pose (w := World (Some {[ lit "q.json" := other ]}) ∅).
  destruct (create accept (answer (lit "Be brief.")) (lit "r") w)
    as [o w'] eqn:E.
  assert (o = Ok (Build (lit "r") (lit "Be brief.") None)) as ->
    by (by vm_compute in E; injection E as <- _).
  destruct (create_writes_own_file accept (answer (lit "Be brief."))
              (lit "r") w w' _ eq_refl E)
    as (H1 & _ & _ & H4 & _).
  unfold world_after. fold other. fold w. rewrite E. simpl.
  split; [exact H1|]. rewrite (H4 (lit "q.json")); [reflexivity | discriminate].
Defined.

(** X13. Saving is idempotent on what it has written: once [_save] has
    gone through, saving the instance it left again, with the overwrite
    confirmed, writes the same file and leaves the same instance.  The
    [You are] prefix is not added a second time. *)
Theorem save_again (confirm confirm' : str → bool) (self self' : t)
    (w w' : world) :
  _save confirm self w = (Ok self', w') →
  confirm' (lit "Role " ++ dquote ++ name self' ++ dquote
              ++ lit " already exists, overwrite it?") = true →
  _save confirm' self' w' = (Ok self', w').
Proof.
  intros H Hc. apply save_ok in H as (-> & dir & Hdir & ->).
  simpl in Hc.
  unfold _save, _exists, path_exists, write_text, _file_path. run.
  rewrite lookup_insert_eq. simpl. rewrite Hc. simpl.
  assert (role_template (name self)
            (role_template (name self) (role self) (slice 0 20 (role self)))
            (slice 0 20
               (role_template (name self) (role self)
                  (slice 0 20 (role self))))
          = role_template (name self) (role self) (slice 0 20 (role self)))
    as ->.
  { destruct (role self) as [|c r]; reflexivity. }
  by rewrite insert_insert_eq.
Qed.

Lemma save_again_witness :
  let self := Build (lit "r") [] None in
  let w := World (Some ∅) ∅ in
  let self' := Build (lit "r") (lit "You are r" ++ nl) None in
  let w' := World (Some {[ lit "r.json" := self' ]}) ∅ in
  _save accept self w = (Ok self', w')
  ∧ _save accept self' w' = (Ok self', w').
Proof.
  assert (_save accept (Build (lit "r") [] None) (World (Some ∅) ∅)
          = (Ok (Build (lit "r") (lit "You are r" ++ nl) None),
             World (Some {[ lit "r.json" :=
                  Build (lit "r") (lit "You are r" ++ nl) None ]}) ∅))
    as Hs by reflexivity.
  split; [exact Hs|].
  exact (save_again accept accept _ _ _ _ Hs eq_refl).
Defined.

(** ** Construction and substitution *)

Lemma outcome_map_app (a b : str) (o : outcome str) :
  outcome_map (app a) (outcome_map (app b) o) = outcome_map (app (a ++ b)) o.
Proof. destruct o; simpl; [by rewrite app_assoc | done]. Qed.

Lemma format_from_text (kw : gmap str str) (pre rest : str) :
  brace_free pre = true →
  format_from kw None (pre ++ rest)
  = outcome_map (app pre) (format_from kw None rest).
Proof.
  unfold brace_free. induction pre as [|c pre IH]; simpl.
  - intros _. by destruct (format_from kw None rest).
  - rewrite andb_true_iff, negb_true_iff, orb_false_iff.
    intros [[-> ->] Hpre]. rewrite (IH Hpre).
    by destruct (format_from kw None rest).
Qed.

Lemma format_from_field (kw : gmap str str) (acc f post : str) :
  brace_free f = true →
  format_from kw (Some acc) (f ++ rbrace :: post)
  = match field_value kw (acc ++ f) with
    | Ok v => outcome_map (app v) (format_from kw None post)
    | Raise e => Raise e
    end.
Proof.
  unfold brace_free. revert acc. induction f as [|c f IH]; intros acc; simpl.
  - intros _. by rewrite app_nil_r.
  - rewrite andb_true_iff, negb_true_iff, orb_false_iff.
    intros [[Hl Hr] Hf]. rewrite Hl, Hr, (IH _ Hf).
    by rewrite <- app_assoc.
Qed.

Lemma format_from_open (kw : gmap str str) (d : N) (rest : str) :
  (d =? lbrace) = false →
  format_from kw None (lbrace :: d :: rest)
  = format_from kw (Some []) (d :: rest).
Proof. intros H. simpl. by rewrite H. Qed.

(** [format] on a text with one leading field. *)
Lemma format_field (kw : gmap str str) (pre f post : str) :
  brace_free pre = true → plain_field f = true →
  format (pre ++ [lbrace] ++ f ++ [rbrace] ++ post) kw
  = match kw !! f with
    | Some v => outcome_map (λ r, pre ++ v ++ r) (format post kw)
    | None => Raise (KeyError f)
    end.
Proof.
  unfold plain_field, format.
  rewrite !andb_true_iff, !negb_true_iff. intros Hpre [[Hf Hfrag] Hdig].
  rewrite (format_from_text _ _ _ Hpre).
  destruct f as [|c f]; [discriminate|].
  assert ((c =? lbrace) = false) as Hc.
  { unfold brace_free in Hf. simpl in Hf.
    rewrite andb_true_iff, negb_true_iff, orb_false_iff in Hf. tauto. }
  change ([lbrace] ++ (c :: f) ++ [rbrace] ++ post)
    with (lbrace :: c :: (f ++ rbrace :: post)).
  rewrite (format_from_open _ _ _ Hc).
  change (c :: f ++ rbrace :: post) with ((c :: f) ++ rbrace :: post).
  rewrite (format_from_field _ _ _ _ Hf). cbn [app].
  unfold field_value, dict_getitem. rewrite Hfrag, Hdig.
  destruct (kw !! _) as [v|]; [|done].
  destruct (format_from kw None post); simpl; [|done].
  done.
Qed.

(** X14. [__init__] creates the storage directory before anything else:
    whatever its arguments are, and also when the substitution raises, the
    world it leaves has the directory, with the files it had if it existed,
    and the same class mapping. *)
Theorem init_creates_storage (name role : str)
    (mtr variables : option (gmap str str)) (w : world) :
  world_after (__init__ name role mtr variables) w
  = World (Some (default ∅ (storage w))) (cls_message_to_role w).
Proof.
  unfold world_after, __init__, mkdir. run.
  destruct variables as [kw|]; [|done].
  destruct (dict_truthy kw); [|done].
  by destruct (format role kw).
Qed.

(** X15. A description without braces is taken as it is, whatever the
    variables are: [__init__] returns the instance with that text. *)
Theorem init_brace_free (name role : str)
    (mtr variables : option (gmap str str)) (w : world) :
  brace_free role = true →
  outcome_of (__init__ name role mtr variables) w = Ok (Build name role mtr).
Proof.
  intros Hb. unfold outcome_of, __init__, mkdir. run.
  destruct variables as [kw|]; [|done].
  destruct (dict_truthy kw); [|done].
  unfold format. rewrite <- (app_nil_r role) at 1.
  rewrite (format_from_text _ _ _ Hb). simpl. by rewrite app_nil_r.
Qed.

Lemma init_brace_free_witness :
  outcome_of
    (__init__ (lit "r") (lit "Answer in French.") None
       (Some {[ lit "shell" := lit "bash" ]})) fresh
  = Ok (Build (lit "r") (lit "Answer in French.") None).
Proof. apply init_brace_free. reflexivity. Defined.

(** X16. A placeholder without a variable.  When some variables are given
    and the first placeholder of the description, a plain name in ASCII,
    names none of them, [__init__] raises [KeyError] with that name. *)
Theorem init_missing_variable (name pre f post : str)
    (mtr : option (gmap str str)) (kw : gmap str str) (w : world) :
  brace_free pre = true → plain_field f = true →
  kw ≠ ∅ → kw !! f = None →
  outcome_of
    (__init__ name (pre ++ [lbrace] ++ f ++ [rbrace] ++ post) mtr (Some kw)) w
  = Raise (KeyError f).
Proof.
  intros Hpre Hf Hne Hk. unfold outcome_of, __init__, mkdir, dict_truthy.
  rewrite bool_decide_eq_false_2 by done.
  unfold mbind, M_bind, mret, M_ret, lift. cbn -[format app].
  rewrite (format_field _ _ _ _ Hpre Hf). unfold str in *. by rewrite Hk.
Qed.

Lemma init_missing_variable_witness :
  outcome_of
    (__init__ (lit "r") (lit "Provide only {shell} commands.") None
       (Some {[ lit "os" := lit "Linux" ]})) fresh
  = Raise (KeyError (lit "shell")).
Proof.
  apply (init_missing_variable (lit "r") (lit "Provide only ") (lit "shell")
           (lit " commands.") None {[ lit "os" := lit "Linux" ]} fresh);
    [reflexivity | reflexivity | apply insert_non_empty | reflexivity].
Defined.

(** X17. A placeholder with a variable.  When the description has one
    placeholder, a plain name in ASCII between two texts without braces,
    and the variables give it a value, the [role] of the instance is the
    description with the value in the place of the placeholder. *)
Theorem init_substitutes (name pre f post v : str)
    (mtr : option (gmap str str)) (kw : gmap str str) (w : world) :
  brace_free pre = true → plain_field f = true → brace_free post = true →
  kw !! f = Some v →
  outcome_of
    (__init__ name (pre ++ [lbrace] ++ f ++ [rbrace] ++ post) mtr (Some kw)) w
  = Ok (Build name (pre ++ v ++ post) mtr).
Proof.
  intros Hpre Hf Hpost Hk. unfold outcome_of, __init__, mkdir, dict_truthy.
  rewrite bool_decide_eq_false_2.
  2:{ intros ->. by rewrite lookup_empty in Hk. }
  unfold mbind, M_bind, mret, M_ret, lift. cbn -[format app].
  rewrite (format_field _ _ _ _ Hpre Hf). unfold str in *. rewrite Hk.
  unfold format. rewrite <- (app_nil_r post) at 1.
  rewrite (format_from_text _ _ _ Hpost). simpl. by rewrite app_nil_r.
Qed.

Lemma init_substitutes_witness :
  outcome_of
    (__init__ (lit "r") (lit "Provide only {shell} commands.") None
       (Some {[ lit "shell" := lit "bash" ]})) fresh
  = Ok (Build (lit "r") (lit "Provide only bash commands.") None).
Proof.
  apply (init_substitutes (lit "r") (lit "Provide only ") (lit "shell")
           (lit " commands.") (lit "bash") None
           {[ lit "shell" := lit "bash" ]} fresh); reflexivity.
Defined.

(** ** Seeding the default roles *)

Lemma seed_body (confirm : str → bool) (r : t) (dir : gmap str t)
    (reg : gmap str str) :
  role_template (name r) (role r) (slice 0 20 (role r)) = role r →
  (ex ← _exists r;
   if ex : bool then mret () else _save confirm r;; mret ())
    (World (Some dir) reg)
  = (Ok (), World (Some (seed_file dir r)) reg).
Proof.
  intros Hr. unfold _save, _exists, path_exists, write_text, seed_file.
  unfold mbind, M_bind, mret, M_ret. cbn -[lit app role_template slice].
  destruct (bool_decide (is_Some _)) eqn:E; cbn -[lit app role_template slice].
  - reflexivity.
  - rewrite E. cbn -[lit app role_template slice]. rewrite Hr.
    by destruct r.
Qed.

Lemma bind_ok {A B} (m : M A) (f : A → M B) (w w' : world) (a : A) :
  m w = (Ok a, w') → (m ≫= f) w = f a w'.
Proof. intros H. unfold mbind, M_bind. by rewrite H. Qed.

Lemma bind_raise {A B} (m : M A) (f : A → M B) (w w' : world) (e : exn) :
  m w = (Raise e, w') → (m ≫= f) w = (Raise e, w').
Proof. intros H. unfold mbind, M_bind. by rewrite H. Qed.

Lemma init_existing (name role : str) (mtr : option (gmap str str))
    (dir : gmap str t) (reg : gmap str str) :
  __init__ name role mtr None (World (Some dir) reg)
  = (Ok (Build name role mtr), World (Some dir) reg).
Proof. reflexivity. Qed.

(** What the first loop of [create_defaults] does. *)
Lemma seed_defaults_eq (confirm : str → bool) (os shell : str) (w : world) :
  seed_defaults confirm os shell w
  = (Ok (),
     World (Some (foldl seed_file (default ∅ (storage w))
                    (default_instances os shell)))
       (cls_message_to_role w)).
Proof.
  unfold seed_defaults. cbv zeta.
  erewrite bind_ok by apply init_plain.
  erewrite bind_ok by apply init_existing.
  erewrite bind_ok by apply init_existing.
  erewrite bind_ok by apply init_existing.
  cbn [for_each].
  erewrite bind_ok by (by apply seed_body).
  erewrite bind_ok by (by apply seed_body).
  erewrite bind_ok by (by apply seed_body).
  erewrite bind_ok by (by apply seed_body).
  reflexivity.
Qed.


Lemma seed_file_other (dir : gmap str t) (r : t) (file : str) :
  file ≠ _file_path r → seed_file dir r !! file = dir !! file.
Proof.
  intros Hne. unfold seed_file. case_bool_decide; [done|].
  by rewrite lookup_insert_ne.
Qed.

Lemma seed_file_own (dir : gmap str t) (r : t) :
  seed_file dir r !! _file_path r
  = Some (default r (dir !! _file_path r)).
Proof.
  unfold seed_file. case_bool_decide as E.
  - destruct E as [obj E]. by rewrite E.
  - rewrite lookup_insert_eq.
    destruct (dir !! _file_path r) eqn:E'; [|done]. exfalso. apply E. eauto.
Qed.












(** ** The build phase *)

Lemma create_defaults_eq (confirm : str → bool) (os shell : str) :
  create_defaults confirm os shell
  = (seed_defaults confirm os shell ≫= λ _, build_mapping).
Proof. reflexivity. Qed.






Lemma foldl_seed_file_new (os shell : str) (dir : gmap str t) (inst : t) :
  inst ∈ default_instances os shell →
  dir !! _file_path inst = None →
  foldl seed_file dir (default_instances os shell) !! _file_path inst
  = Some inst.
Proof.
  unfold default_instances. intros Hin Hd.
  repeat (apply elem_of_cons in Hin as [Hin|Hin];
          [ subst inst; cbn [foldl];
            repeat first
              [ rewrite (seed_file_other _ _ _) by discriminate
              | rewrite seed_file_own
              | rewrite Hd ];
            reflexivity | ]).
  by apply elem_of_nil in Hin.
Qed.


(** X22. Bootstrapping fails whenever it has to seed one of the three
    default roles that are built with the variables: if the file of
    [ShellGPT], of [Shell Command Generator] or of
    [Shell Command Descriptor] is missing, [create_defaults] raises. *)
Theorem create_defaults_raises_after_seeding (confirm : str → bool)
    (os shell : str) (w : world) (d : DefaultRoles.t) :
  d ≠ DefaultRoles.CODE →
  file_content w (DefaultRoles.value d ++ lit ".json") = None →
  ∃ e w', create_defaults confirm os shell w = (Raise e, w').
Proof.
  intros Hd Hfile. rewrite create_defaults_eq.
  erewrite bind_ok by apply seed_defaults_eq.
  assert (∃ inst, inst ∈ default_instances os shell
                  ∧ _file_path inst = DefaultRoles.value d ++ lit ".json"
                  ∧ message_to_role inst
                    = Some {[ lit "shell" := shell; lit "os" := os ]})
    as (inst & Hin & Hpath & Hmtr).
  { unfold default_instances. destruct d; [| | |done]; eexists.
    - split; [apply list_elem_of_here | split; reflexivity].
    - split; [apply list_elem_of_further, list_elem_of_here
             | split; reflexivity].
    - split; [do 2 apply list_elem_of_further; apply list_elem_of_here
             | split; reflexivity]. }
  apply (scan_raises_on_unnamed (_file_path inst) inst
           {[ lit "shell" := shell; lit "os" := os ]}).
  - apply foldl_seed_file_new; [done|]. rewrite Hpath.
    unfold file_content in Hfile.
    destruct (storage w); [done | apply lookup_empty].
  - rewrite Hpath. unfold endswith. rewrite !rev_app_distr.
    by apply startswith_app_iff; eexists.
  - done.
  - apply insert_non_empty.
  - reflexivity.
Qed.

Lemma create_defaults_raises_after_seeding_witness :
  let w := World (Some {[ lit "Code Generator.json" :=
                            Build (lit "Code Generator") CODE_ROLE None ]}) ∅ in
  ∃ e w', create_defaults accept (lit "Linux") (lit "bash") w = (Raise e, w').
Proof.
  apply (create_defaults_raises_after_seeding accept (lit "Linux") (lit "bash")
           _ DefaultRoles.SHELL); [discriminate | reflexivity].
Defined.






(** ** The platform queries *)

Lemma startswith_refl (s : str) : startswith s s = true.
Proof. apply startswith_app_iff. exists []. by rewrite app_nil_r. Qed.

Lemma find_char_cons (c x : N) (s : str) :
  find [c] (x :: s) = if x =? c then Some 0%nat else S <$> find [c] s.
Proof.
  simpl. rewrite (N.eqb_sym c x). by destruct (x =? c).
Qed.

Lemma length_split_char_cons (c x : N) (s : str) :
  length (split [c] (x :: s))
  = ((if (x =? c)%N then 1 else 0) + length (split [c] s))%nat.
Proof.
  pose proof (find_char_cons c x s) as Hf.
  destruct (x =? c) eqn:E.
  - by rewrite (split_found [c] (x :: s) 0 ltac:(done) Hf).
  - destruct (find [c] s) as [i|] eqn:F;
      cbn [fmap option_fmap option_map] in Hf.
    + rewrite (split_found [c] (x :: s) (S i) ltac:(done) Hf).
      by rewrite (split_found [c] s i ltac:(done) F).
    + by rewrite (split_not_found _ _ Hf), (split_not_found _ _ F).
Qed.

(** Splitting on one character gives one piece more than there are
    occurrences of it. *)
Lemma length_split_char (c : N) (s : str) :
  length (split [c] s) = S (Platform.count_char c s).
Proof.
  induction s as [|x s IH]; [done|].
  rewrite length_split_char_cons, IH. simpl. lia.
Qed.

Lemma until_char_spec (c : N) (s : str) :
  (c ∉ Platform.until_char c s)
  ∧ ∃ rest, s = Platform.until_char c s ++ rest
            ∧ (rest = [] ∨ ∃ rest', rest = c :: rest').
Proof.
  induction s as [|x s (Hnot & rest & Hs & Hrest)]; simpl.
  - split; [by intros ?%elem_of_nil|]. exists []. eauto.
  - destruct (x =? c) eqn:E.
    + apply N.eqb_eq in E as ->.
      split; [by intros ?%elem_of_nil|]. exists (c :: s). eauto.
    + apply N.eqb_neq in E. split.
      * intros [?|?]%elem_of_cons; [congruence | done].
      * exists rest. split; [simpl; f_equal; exact Hs | done].
Qed.

(** X26. Off Windows the shell name is the value of [SHELL], or of
    [/bin/sh] when the variable is not set, cut behind its last slash: it
    contains no slash, and what is cut off is empty or ends with one. *)
Theorem shell_name_is_basename (current_platform : str)
    (environ : gmap str str) (pathsep : str) :
  current_platform ≠ lit "Windows" → current_platform ≠ lit "nt" →
  let path := Platform.getenv environ (lit "SHELL") (lit "/bin/sh") in
  let shell := Platform._shell_name current_platform environ pathsep in
  (47 ∉ shell)
  ∧ ∃ dir, path = dir ++ shell ∧ (dir = [] ∨ ∃ dir', dir = dir' ++ [47]).
Proof.
  intros Hw Hnt. unfold Platform._shell_name.
  rewrite !bool_decide_eq_false_2 by done. cbn [orb]. cbv zeta.
  unfold Platform.basename.
  generalize (Platform.getenv environ (lit "SHELL") (lit "/bin/sh")).
  intros path.
  destruct (until_char_spec 47 (rev path)) as (Hnot & rest & Hs & Hrest).
  split.
  - intros Hin. apply Hnot. apply list_elem_of_In, in_rev.
    by apply list_elem_of_In.
  - exists (rev rest). split.
    + rewrite <- rev_app_distr, <- Hs. by rewrite rev_involutive.
    + destruct Hrest as [->|[rest' ->]]; [by left|]. right.
      exists (rev rest'). reflexivity.
Qed.

Lemma shell_name_is_basename_witness :
  Platform._shell_name (lit "Linux")
    {[ lit "SHELL" := lit "/usr/bin/zsh" ]} (lit ":")
  = lit "zsh"
  ∧ (47 ∉ Platform._shell_name (lit "Linux")
            {[ lit "SHELL" := lit "/usr/bin/zsh" ]} (lit ":")).
Proof.
  split; [reflexivity|].
  apply (shell_name_is_basename (lit "Linux")
           {[ lit "SHELL" := lit "/usr/bin/zsh" ]} (lit ":"));
    discriminate.
Defined.

(** X27. On Windows the shell name is [powershell.exe] when the variable
    [PSModulePath] holds at least two path separators, and [cmd.exe]
    otherwise, also when the variable is not set. *)
Theorem shell_name_windows (current_platform : str)
    (environ : gmap str str) (sep : N) :
  current_platform = lit "Windows" ∨ current_platform = lit "nt" →
  Platform._shell_name current_platform environ [sep]
  = if bool_decide
         (2 ≤ Platform.count_char sep
                (Platform.getenv environ (lit "PSModulePath") []))%nat
    then lit "powershell.exe" else lit "cmd.exe".
Proof.
  intros Hp. unfold Platform._shell_name.
  assert (bool_decide (current_platform = lit "Windows")
          || bool_decide (current_platform = lit "nt") = true) as ->.
  { destruct Hp as [->| ->]; reflexivity. }
  cbv zeta. rewrite length_split_char.
  destruct (bool_decide (3 ≤ _)%nat) eqn:E1;
    destruct (bool_decide (2 ≤ _)%nat) eqn:E2; try reflexivity.
  - apply bool_decide_eq_true in E1. apply bool_decide_eq_false in E2. lia.
  - apply bool_decide_eq_false in E1. apply bool_decide_eq_true in E2. lia.
Qed.

Lemma shell_name_windows_witness :
  Platform._shell_name (lit "Windows")
    {[ lit "PSModulePath" := lit "C:\a;C:\b;C:\c" ]} (lit ";")
  = lit "powershell.exe"
  ∧ Platform._shell_name (lit "Windows") ∅ (lit ";") = lit "cmd.exe".
Proof.
  split.
  - rewrite (shell_name_windows (lit "Windows")
               {[ lit "PSModulePath" := lit "C:\a;C:\b;C:\c" ]} 59);
      [reflexivity | by left].
  - rewrite (shell_name_windows (lit "Windows") ∅ 59);
      [reflexivity | by left].
Defined.

(** X28. The operating system descriptor always begins with the name of the
    platform, and is that name alone for a platform other than Linux,
    Windows and Darwin. *)
Theorem os_name_starts_with_platform
    (current_platform distro_name release mac_ver : str) :
  startswith current_platform
    (Platform._os_name current_platform distro_name release mac_ver) = true
  ∧ (current_platform ≠ lit "Linux" → current_platform ≠ lit "Windows" →
     current_platform ≠ lit "Darwin" →
     Platform._os_name current_platform distro_name release mac_ver
     = current_platform).
Proof.
  unfold Platform._os_name. split.
  - repeat case_bool_decide; subst; try reflexivity. apply startswith_refl.
  - intros. by rewrite !bool_decide_eq_false_2.
Qed.

(** ** Listing *)

Section SortedLemmas.

Context {A K : Type} (key : A → K) (le : K → K → bool).
Hypothesis le_total : ∀ a b, le a b = true ∨ le b a = true.
Hypothesis le_trans : ∀ a b c, le a b = true → le b c = true → le a c = true.

Let before (x y : A) : Prop := le (key x) (key y) = true.

Lemma insert_by_perm (x : A) (l : list A) : insert_by key le x l ≡ₚ x :: l.
Proof.
  induction l as [|y l IH]; simpl; [done|].
  destruct (le (key x) (key y)); [done|].
  rewrite IH. apply Permutation_swap.
Qed.

Lemma sorted_perm (l : list A) : sorted key le l ≡ₚ l.
Proof.
  induction l as [|x l IH]; simpl; [done|].
  unfold sorted in IH. by rewrite insert_by_perm, IH.
Qed.

Lemma insert_by_sorted (x : A) (l : list A) :
  StronglySorted before l → StronglySorted before (insert_by key le x l).
Proof.
  induction 1 as [|y l Hl IH Hy]; simpl.
  - repeat constructor.
  - destruct (le (key x) (key y)) eqn:E.
    + constructor; [by constructor|]. constructor; [done|].
      eapply Forall_impl; [exact Hy|]. intros z Hz. unfold before in *.
      by eapply le_trans.
    + constructor; [done|].
      rewrite insert_by_perm. constructor; [|done].
      unfold before. destruct (le_total (key x) (key y)); congruence.
Qed.

Lemma sorted_sorted (l : list A) : StronglySorted before (sorted key le l).
Proof.
  induction l as [|x l IH]; simpl; [constructor|].
  by apply insert_by_sorted.
Qed.

End SortedLemmas.

(** X29. [list] echoes every entry of the storage directory exactly once,
    in ascending order of modification time, and nothing when the
    directory does not exist; it changes nothing. *)
Theorem list_ascending {mtime : Type} (le : mtime → mtime → bool)
    (st_mtime : str → mtime) (w : world) :
  (∀ a b, le a b = true ∨ le b a = true) →
  (∀ a b c, le a b = true → le b c = true → le a c = true) →
  ∃ paths,
    list_ le st_mtime w = (Ok paths, w)
    ∧ NoDup paths
    ∧ (∀ file, file ∈ paths ↔ is_Some (file_content w file))
    ∧ StronglySorted (λ a b, le (st_mtime a) (st_mtime b) = true) paths.
Proof.
  intros Htotal Htrans. unfold list_, file_content.
  destruct (storage w) as [dir|]; simpl.
  - eexists. split; [reflexivity|]. split; [|split].
    + rewrite sorted_perm. apply NoDup_fst_map_to_list.
    + intros file. rewrite sorted_perm, list_elem_of_fmap. split.
      * intros ([f obj] & -> & Hin). apply elem_of_map_to_list in Hin.
        simpl. eauto.
      * intros [obj Hobj]. exists (file, obj).
        split; [done | by apply elem_of_map_to_list].
    + by apply sorted_sorted.
  - exists []. split; [done|]. split; [constructor|]. split; [|constructor].
    intros file. split; [by intros ?%elem_of_nil | by intros [? ?]].
Qed.

Lemma list_ascending_witness :
  let w := World (Some {[ lit "a.json" := Build (lit "a") (lit "A") None;
                          lit "b.json" := Build (lit "b") (lit "B") None ]}) ∅ in
  let st_mtime : str → N :=
    λ file, if bool_decide (file = lit "a.json") then 20 else 10 in
  list_ N.leb st_mtime w = (Ok [lit "b.json"; lit "a.json"], w)
  ∧ ∃ paths, list_ N.leb st_mtime w = (Ok paths, w) ∧ NoDup paths.
Proof.
  split; [reflexivity|].
  destruct (list_ascending N.leb
              (λ file, if bool_decide (file = lit "a.json") then 20 else 10)
              (World (Some {[ lit "a.json" := Build (lit "a") (lit "A") None;
                              lit "b.json" := Build (lit "b") (lit "B") None ]})
                 ∅))
    as (paths & Hl & Hnd & _).
  - intros a b. rewrite !N.leb_le. lia.
  - intros a b c. rewrite !N.leb_le. lia.
  - exists paths. split; [exact Hl | exact Hnd].
Defined.
